(** * Floorplans: calibration dialog and scene composer

    A shallow embedding of the two Vue components of the floorplans
    application:

    - [ImageEditor] (src/components/ImageEditor.vue): the crop-then-scale
      calibration dialog of one pasted image;
    - [Composer] (the canvas component that mounts AddImageHandler.vue):
      the ordered collection of calibrated images, the camera, selection,
      drag, pan, zoom and the writes to [window.localStorage].

    Every handler of the source is a function from the component before
    the event to the component after it.  Drawing on the canvas ([render])
    reads the component and changes nothing of it, and is left out, as is
    [e.preventDefault()].

    TypeScript's [number] is kept behind the class [Number], so that every
    handler is written once, the way the source writes it.  Two instances
    are given: IEEE 754 binary64 (Rocq's primitive floats), which is what
    the program runs on, and the real numbers, which is the exact
    arithmetic its geometry is meant in. *)

From Stdlib Require Import ZArith QArith Reals Lra Lia Floats String.
From stdpp Require Import base option list gmap.

Set Implicit Arguments.
Set Maximal Implicit Insertion.
Set Default Proof Using "Type".
(* A decimal literal such as 1.3 stands for the nearest double. *)
Set Warnings "-inexact-float".

(** ** JavaScript numbers *)

Declare Scope num_scope.
Delimit Scope num_scope with num.

Class Number (N : Type) : Type := {
  num_add : N → N → N;
  num_sub : N → N → N;
  num_mul : N → N → N;
  num_div : N → N → N;
  num_rem : N → N → N;          (* the [%] operator *)
  num_lt : N → N → bool;        (* [<];  [a > b] is [num_lt b a] *)
  num_le : N → N → bool;        (* [<=]; [a >= b] is [num_le b a] *)
  num_eq : N → N → bool;        (* [===] and [==] between two numbers *)
  Math_abs : N → N;
  Math_sqrt : N → N;
  Math_min : N → N → N;
  Math_max : N → N → N;
  lit : Q → N;                  (* a decimal literal of the source text *)
}.

Arguments lit {N _} q%_Q.

Notation "x + y" := (num_add x y) : num_scope.
Notation "x - y" := (num_sub x y) : num_scope.
Notation "x * y" := (num_mul x y) : num_scope.
Notation "x / y" := (num_div x y) : num_scope.
Notation "x 'mod' y" := (num_rem x y) : num_scope.
Notation "x <? y" := (num_lt x y) : num_scope.
Notation "x >? y" := (num_lt y x) : num_scope.
Notation "x <=? y" := (num_le x y) : num_scope.
Notation "x >=? y" := (num_le y x) : num_scope.
Notation "x === y" := (num_eq x y) (at level 70, no associativity) : num_scope.

(** *** binary64

    The arithmetic operators and [Math.abs] are the IEEE operations.
    [Math.sqrt] is taken to be the correctly rounded square root, which is
    what every engine ships.  [Math.min] and [Math.max] follow ECMAScript:
    a NaN operand gives NaN, and -0 is smaller than +0. *)

Module Binary64.

Definition of_Z (z : Z) : float :=
  match z with
  | Z0 => 0%float
  | Zpos _ => of_uint63 (Uint63.of_Z z)
  | Zneg p => (- of_uint63 (Uint63.of_Z (Zpos p)))%float
  end.

(** A literal [n/d] with [n] and [d] below 2^53 is the double nearest to
    the quotient, which is what the IEEE division of the two integers
    returns. *)
Definition of_literal (q : Q) : float :=
  (of_Z (Qnum q) / of_Z (Zpos (Qden q)))%float.

Definition is_neg_zero (a : float) : bool :=
  (a =? 0)%float && (1 / a <? 0)%float.

Definition min (a b : float) : float :=
  if is_nan a || is_nan b then nan
  else if (a <? b)%float then a
  else if (b <? a)%float then b
  else if is_neg_zero a then a else b.

Definition max (a b : float) : float :=
  if is_nan a || is_nan b then nan
  else if (a <? b)%float then b
  else if (b <? a)%float then a
  else if is_neg_zero a then b else a.

(** [x % y]: the exact remainder of the truncating division, with the sign
    of the dividend (ECMAScript Number::remainder, C's fmod). *)
Definition rem (x y : float) : float :=
  match Prim2SF x, Prim2SF y with
  | S754_nan, _ | _, S754_nan => nan
  | S754_infinity _, _ => nan
  | _, S754_zero _ => nan
  | S754_zero _, _ => x
  | S754_finite _ _ _, S754_infinity _ => x
  | S754_finite sx mx ex, S754_finite _ my ey =>
      let e0 := Z.min ex ey in
      let r := ((Zpos mx * 2 ^ (ex - e0)) mod (Zpos my * 2 ^ (ey - e0)))%Z in
      let m := Z.ldexp (of_uint63 (Uint63.of_Z r)) e0 in
      if sx then (- m)%float else m
  end.

#[global] Instance number : Number float := {|
  num_add := PrimFloat.add;
  num_sub := PrimFloat.sub;
  num_mul := PrimFloat.mul;
  num_div := PrimFloat.div;
  num_rem := rem;
  num_lt := PrimFloat.ltb;
  num_le := PrimFloat.leb;
  num_eq := PrimFloat.eqb;
  Math_abs := PrimFloat.abs;
  Math_sqrt := PrimFloat.sqrt;
  Math_min := min;
  Math_max := max;
  lit := of_literal;
|}.

End Binary64.

(** *** Exact arithmetic

    The same operators over the real numbers: no rounding, no NaN, no
    infinities. *)

Module Exact.

Definition trunc (r : R) : Z :=
  if Rle_dec 0 r then Int_part r else (- Int_part (- r))%Z.

Definition rem (x y : R) : R := (x - y * IZR (trunc (x / y)))%R.

#[global] Instance number : Number R := {|
  num_add := Rplus;
  num_sub := Rminus;
  num_mul := Rmult;
  num_div := Rdiv;
  num_rem := rem;
  num_lt := λ a b, if Rlt_dec a b then true else false;
  num_le := λ a b, if Rle_dec a b then true else false;
  num_eq := λ a b, if Req_dec_T a b then true else false;
  Math_abs := Rabs;
  Math_sqrt := R_sqrt.sqrt;
  Math_min := Rmin;
  Math_max := Rmax;
  lit := Q2R;
|}.

End Exact.

(** ** Data shared by the two components *)

(** [Array.prototype.includes] on a list of tags. *)
Definition includes {A : Type} `{EqDecision A} (l : list A) (a : A) : bool :=
  bool_decide (a ∈ l).

(** An optional field holds a value ([x !== undefined], or a truthy
    object). *)
Definition defined {A : Type} (o : option A) : bool :=
  match o with Some _ => true | None => false end.

(** [Array.prototype.findIndex]; [None] stands for the answer -1. *)
Fixpoint findIndex {A : Type} (p : A → bool) (l : list A) : option nat :=
  match l with
  | [] => None
  | a :: l => if p a then Some 0 else S <$> findIndex p l
  end.

(** The part of an [HTMLImageElement] the program reads. *)
Module HTMLImageElement.
Record t (N : Type) : Type := mk { src : string; width : N; height : N }.
End HTMLImageElement.

(** [interface RenderableImage]. *)
Module RenderableImage.

Record t (N : Type) : Type := mk {
  image : HTMLImageElement.t N;
  x : N;
  y : N;
  cropOffsetX : N;
  cropOffsetY : N;
  cropWidth : N;
  cropHeight : N;
  pixelsPerMetre : N;
  label : option string;
  id : N;
  rotationDegrees : N;
  opacity : N;
}.

Section Setters.
Context {N : Type}.
Implicit Type img : t N.

Definition set_position (x' y' : N) img : t N :=
  mk (image img) x' y' (cropOffsetX img) (cropOffsetY img) (cropWidth img)
     (cropHeight img) (pixelsPerMetre img) (label img) (id img)
     (rotationDegrees img) (opacity img).

Definition set_crop (ox oy w h : N) img : t N :=
  mk (image img) (x img) (y img) ox oy w h (pixelsPerMetre img)
     (label img) (id img) (rotationDegrees img) (opacity img).

Definition set_pixelsPerMetre (v : N) img : t N :=
  mk (image img) (x img) (y img) (cropOffsetX img) (cropOffsetY img)
     (cropWidth img) (cropHeight img) v (label img) (id img)
     (rotationDegrees img) (opacity img).

Definition set_label (v : option string) img : t N :=
  mk (image img) (x img) (y img) (cropOffsetX img) (cropOffsetY img)
     (cropWidth img) (cropHeight img) (pixelsPerMetre img) v (id img)
     (rotationDegrees img) (opacity img).

Definition set_rotationDegrees (v : N) img : t N :=
  mk (image img) (x img) (y img) (cropOffsetX img) (cropOffsetY img)
     (cropWidth img) (cropHeight img) (pixelsPerMetre img) (label img)
     (id img) v (opacity img).

Definition set_opacity (v : N) img : t N :=
  mk (image img) (x img) (y img) (cropOffsetX img) (cropOffsetY img)
     (cropWidth img) (cropHeight img) (pixelsPerMetre img) (label img)
     (id img) (rotationDegrees img) v.

End Setters.
End RenderableImage.

(** What the handlers read of [canvas.getBoundingClientRect()] and of a
    DOM event. *)
Module DOMRect.
Record t (N : Type) : Type := mk { left : N; top : N }.
End DOMRect.

Module MouseEvent.
Record t (N : Type) : Type := mk {
  clientX : N;
  clientY : N;
  button : Z;      (* a WebIDL [short] *)
}.
End MouseEvent.

Module WheelEvent.
Record t (N : Type) : Type := mk { deltaY : N }.
End WheelEvent.

(** [interface Coordinate] and [type CoordinateSystem] of the dialog. *)
Module Coordinate.

Inductive CoordinateSystem : Set := image | canvas | screen.

#[global] Instance CoordinateSystem_eq_dec : EqDecision CoordinateSystem.
Proof. solve_decision. Defined.

(** The text a template literal prints for a system tag. *)
Definition to_string (s : CoordinateSystem) : string :=
  match s with image => "image" | canvas => "canvas" | screen => "screen" end.

Record t (N : Type) : Type := mk { system : CoordinateSystem; x : N; y : N }.

End Coordinate.

(** [type CropHandle]. *)
Module CropHandle.

Inductive t : Set := xMin | xMax | yMin | yMax.

#[global] Instance eq_dec : EqDecision t.
Proof. solve_decision. Defined.

Definition to_string (h : t) : string :=
  match h with
  | xMin => "xMin" | xMax => "xMax" | yMin => "yMin" | yMax => "yMax"
  end.

End CropHandle.

(** A point of the canvas or of the world: [{ x: number; y: number }]. *)
Module Point.
Record t (N : Type) : Type := mk { x : N; y : N }.
End Point.

(** What [getImageBoundingBox] returns. *)
Module BoundingBox.
Record t (N : Type) : Type := mk { xMin : N; xMax : N; yMin : N; yMax : N }.
End BoundingBox.

(** An element of [SavedState]: the image record with its [image] replaced
    by the element's [src]. *)
Module SavedImage.

Record t (N : Type) : Type := mk {
  image : string;
  x : N;
  y : N;
  cropOffsetX : N;
  cropOffsetY : N;
  cropWidth : N;
  cropHeight : N;
  pixelsPerMetre : N;
  label : option string;
  id : N;
  rotationDegrees : N;
  opacity : N;
}.

Definition of_image {N : Type} (img : RenderableImage.t N) : t N :=
  {| image := HTMLImageElement.src (RenderableImage.image img);
     x := RenderableImage.x img;
     y := RenderableImage.y img;
     cropOffsetX := RenderableImage.cropOffsetX img;
     cropOffsetY := RenderableImage.cropOffsetY img;
     cropWidth := RenderableImage.cropWidth img;
     cropHeight := RenderableImage.cropHeight img;
     pixelsPerMetre := RenderableImage.pixelsPerMetre img;
     label := RenderableImage.label img;
     id := RenderableImage.id img;
     rotationDegrees := RenderableImage.rotationDegrees img;
     opacity := RenderableImage.opacity img |}.

End SavedImage.

(** ** ImageEditor.vue: the calibration dialog *)

Module ImageEditor.

Record CropState (N : Type) : Type := mkCropState {
  xMin : N;
  xMax : N;
  yMin : N;
  yMax : N;
  currentCropHandles : list CropHandle.t;
}.

(** [end] and [length] are taken in Rocq, hence the underscores. *)
Record ScaleState (N : Type) : Type := mkScaleState {
  start : option (Coordinate.t N);
  end_ : option (Coordinate.t N);
  length_ : option N;
}.

(** [type State = CropState | ScaleState], discriminated by [stage]. *)
Inductive State (N : Type) : Type :=
  | crop (c : CropState N)
  | scale (s : ScaleState N).
Arguments crop {N} c.
Arguments scale {N} s.

(** The component instance: its refs, its module-level variables, and what
    it has sent out (the lines printed by [console.error] and the records
    handed to [props.onSave]), oldest first. *)
Record Editor (N : Type) : Type := mkEditor {
  canvas : option (DOMRect.t N);
  cursorClass : option string;
  renderableImage : RenderableImage.t N;
  state : State N;
  mouseLocation : option (Coordinate.t N);
  shiftPressed : bool;
  console_error : list string;
  onSave : list (RenderableImage.t N);
}.

Section Handlers.
Context {N : Type} `{!Number N}.
Local Open Scope num_scope.
Implicit Type ed : Editor N.

Definition set_cursorClass (v : option string) ed : Editor N :=
  mkEditor (canvas ed) v (renderableImage ed) (state ed) (mouseLocation ed)
           (shiftPressed ed) (console_error ed) (onSave ed).

Definition set_renderableImage (v : RenderableImage.t N) ed : Editor N :=
  mkEditor (canvas ed) (cursorClass ed) v (state ed) (mouseLocation ed)
           (shiftPressed ed) (console_error ed) (onSave ed).

Definition set_state (v : State N) ed : Editor N :=
  mkEditor (canvas ed) (cursorClass ed) (renderableImage ed) v
           (mouseLocation ed) (shiftPressed ed) (console_error ed) (onSave ed).

Definition set_mouseLocation (v : option (Coordinate.t N)) ed : Editor N :=
  mkEditor (canvas ed) (cursorClass ed) (renderableImage ed) (state ed) v
           (shiftPressed ed) (console_error ed) (onSave ed).

Definition set_shiftPressed (v : bool) ed : Editor N :=
  mkEditor (canvas ed) (cursorClass ed) (renderableImage ed) (state ed)
           (mouseLocation ed) v (console_error ed) (onSave ed).

Definition log_error (line : string) ed : Editor N :=
  mkEditor (canvas ed) (cursorClass ed) (renderableImage ed) (state ed)
           (mouseLocation ed) (shiftPressed ed) (console_error ed ++ [line])
           (onSave ed).

Definition emit_onSave (img : RenderableImage.t N) ed : Editor N :=
  mkEditor (canvas ed) (cursorClass ed) (renderableImage ed) (state ed)
           (mouseLocation ed) (shiftPressed ed) (console_error ed)
           (onSave ed ++ [img]).

Definition set_xMin (v : N) (c : CropState N) : CropState N :=
  mkCropState v (xMax c) (yMin c) (yMax c) (currentCropHandles c).

Definition set_xMax (v : N) (c : CropState N) : CropState N :=
  mkCropState (xMin c) v (yMin c) (yMax c) (currentCropHandles c).

Definition set_yMin (v : N) (c : CropState N) : CropState N :=
  mkCropState (xMin c) (xMax c) v (yMax c) (currentCropHandles c).

Definition set_yMax (v : N) (c : CropState N) : CropState N :=
  mkCropState (xMin c) (xMax c) (yMin c) v (currentCropHandles c).

Definition set_currentCropHandles (v : list CropHandle.t) (c : CropState N)
  : CropState N :=
  mkCropState (xMin c) (xMax c) (yMin c) (yMax c) v.

Definition CANVAS_WIDTH : N := lit 1200.
Definition CANVAS_HEIGHT : N := lit 700.
Definition CROP_HANDLE_TOLERANCE : N := lit 10.

(** The component as it is set up for [props.image]; [newId] is the value
    of [generateId()], [rect] the canvas once it is mounted. *)
Definition setup (img : HTMLImageElement.t N) (newId : N)
    (rect : option (DOMRect.t N)) : Editor N :=
  {| canvas := rect;
     cursorClass := None;
     renderableImage :=
       {| RenderableImage.image := img;
          RenderableImage.x := lit 0;
          RenderableImage.y := lit 0;
          RenderableImage.cropOffsetX := lit 0;
          RenderableImage.cropOffsetY := lit 0;
          RenderableImage.cropWidth := HTMLImageElement.width img;
          RenderableImage.cropHeight := HTMLImageElement.height img;
          RenderableImage.pixelsPerMetre := lit 0;
          RenderableImage.label := None;
          RenderableImage.id := newId;
          RenderableImage.rotationDegrees := lit 0;
          RenderableImage.opacity := lit 1 |};
     state := crop {| xMin := lit 20;
                      xMax := HTMLImageElement.width img - lit 20;
                      yMin := lit 20;
                      yMax := HTMLImageElement.height img - lit 20;
                      currentCropHandles := [] |};
     mouseLocation := None;
     shiftPressed := false;
     console_error := [];
     onSave := [] |}.

Definition saveDisabled ed : bool :=
  match state ed with
  | crop _ => true
  | scale s =>
      negb (defined (start s)) || negb (defined (end_ s))
      || negb (defined (length_ s))
  end.

Definition imageToCanvasScaleFactor ed : N :=
  Math_min (CANVAS_WIDTH / RenderableImage.cropWidth (renderableImage ed))
           (CANVAS_HEIGHT / RenderableImage.cropHeight (renderableImage ed)).

(** [snapLine] reads [shiftPressed] and may print to the console, so it
    takes the component and returns it next to the coordinate. *)
Definition snapLine (start : option (Coordinate.t N)) (cursor : Coordinate.t N)
    ed : Coordinate.t N * Editor N :=
  match start with
  | None => (cursor, ed)
  | Some start =>
      if shiftPressed ed then (cursor, ed)
      else if negb (bool_decide (Coordinate.system start = Coordinate.system cursor))
      then
        (cursor,
         log_error ("Coordinate system mismatch: "
                    ++ Coordinate.to_string (Coordinate.system start)
                    ++ " and "
                    ++ Coordinate.to_string (Coordinate.system cursor)) ed)
      else
        let dx := Coordinate.x cursor - Coordinate.x start in
        let dy := Coordinate.y cursor - Coordinate.y start in
        if Math_abs dx >? Math_abs dy then
          ({| Coordinate.system := Coordinate.system cursor;
              Coordinate.x := Coordinate.x cursor;
              Coordinate.y := Coordinate.y start |}, ed)
        else
          ({| Coordinate.system := Coordinate.system cursor;
              Coordinate.x := Coordinate.x start;
              Coordinate.y := Coordinate.y cursor |}, ed)
  end.

(** The body of the component's [watchEffect], without its [render].  Vue
    runs it again once a handler has written to [state]; it writes the
    cursor class only, which no handler reads. *)
Definition watchEffect ed : Editor N :=
  match state ed with
  | scale _ => set_cursorClass (Some "cursor-crosshair"%string) ed
  | crop _ => ed
  end.

Definition findUsableCropHandles ed : list CropHandle.t :=
  match mouseLocation ed, state ed with
  | Some m, crop c =>
      let handles := [] in
      let handles :=
        if Math_abs (Coordinate.x m - xMin c * imageToCanvasScaleFactor ed)
           <? CROP_HANDLE_TOLERANCE
        then handles ++ [CropHandle.xMin] else handles in
      let handles :=
        if (Math_abs (Coordinate.x m - xMax c * imageToCanvasScaleFactor ed)
            <? CROP_HANDLE_TOLERANCE)
           && negb (includes handles CropHandle.xMin)
        then handles ++ [CropHandle.xMax] else handles in
      let handles :=
        if Math_abs (Coordinate.y m - yMin c * imageToCanvasScaleFactor ed)
           <? CROP_HANDLE_TOLERANCE
        then handles ++ [CropHandle.yMin] else handles in
      let handles :=
        if (Math_abs (Coordinate.y m - yMax c * imageToCanvasScaleFactor ed)
            <? CROP_HANDLE_TOLERANCE)
           && negb (includes handles CropHandle.yMin)
        then handles ++ [CropHandle.yMax] else handles in
      handles
  | _, _ => []
  end.

Definition updateCropCursor (handles : list CropHandle.t) ed : Editor N :=
  set_cursorClass
    (Some (String.concat " "
             (map (λ handle, ("cropping-" ++ CropHandle.to_string handle)%string)
                  handles)))
    ed.

(** The four assignments of the crop branch of [handleMouseMove], in the
    order of the source: each reads the bounds the previous ones left. *)
Definition dragCropHandles (m : Coordinate.t N) (scaleFactor : N)
    (c : CropState N) : CropState N :=
  let c :=
    if includes (currentCropHandles c) CropHandle.xMin
    then set_xMin (Math_min (Coordinate.x m / scaleFactor) (xMax c)) c
    else c in
  let c :=
    if includes (currentCropHandles c) CropHandle.xMax
    then set_xMax (Math_max (Coordinate.x m / scaleFactor) (yMin c)) c
    else c in
  let c :=
    if includes (currentCropHandles c) CropHandle.yMin
    then set_yMin (Math_min (Coordinate.y m / scaleFactor) (xMax c)) c
    else c in
  let c :=
    if includes (currentCropHandles c) CropHandle.yMax
    then set_yMax (Math_max (Coordinate.y m / scaleFactor) (yMin c)) c
    else c in
  c.

Definition handleMouseMove (e : MouseEvent.t N) ed : Editor N :=
  match canvas ed with
  | None => ed
  | Some boundingRect =>
      let m := {| Coordinate.system := Coordinate.canvas;
                  Coordinate.x := MouseEvent.clientX e - DOMRect.left boundingRect;
                  Coordinate.y := MouseEvent.clientY e - DOMRect.top boundingRect |} in
      let ed := set_mouseLocation (Some m) ed in
      match state ed with
      | crop c =>
          match currentCropHandles c with
          | _ :: _ =>
              set_state (crop (dragCropHandles m (imageToCanvasScaleFactor ed) c)) ed
          | [] => updateCropCursor (findUsableCropHandles ed) ed
          end
      | scale _ => ed
      end
  end.

Definition handleMouseDown ed : Editor N :=
  match state ed, mouseLocation ed with
  | crop c, Some _ =>
      match findUsableCropHandles ed with
      | [] => ed
      | handles =>
          updateCropCursor handles
            (set_state (crop (set_currentCropHandles handles c)) ed)
      end
  | _, _ => ed
  end.

Definition handleMouseUp ed : Editor N :=
  match state ed with
  | crop c =>
      updateCropCursor [] (set_state (crop (set_currentCropHandles [] c)) ed)
  | scale _ => ed
  end.

Definition handleMouseClick (e : MouseEvent.t N) ed : Editor N :=
  match canvas ed with
  | None => ed
  | Some boundingRect =>
      match state ed with
      | scale s =>
          let (snappedImagePosition, ed) :=
            snapLine (start s)
              {| Coordinate.system := Coordinate.image;
                 Coordinate.x := (MouseEvent.clientX e - DOMRect.left boundingRect)
                                 / imageToCanvasScaleFactor ed;
                 Coordinate.y := (MouseEvent.clientY e - DOMRect.top boundingRect)
                                 / imageToCanvasScaleFactor ed |}
              ed in
          if negb (defined (start s)) || defined (end_ s) then
            set_state (scale (mkScaleState (Some snappedImagePosition) None
                                           (length_ s))) ed
          else
            set_state (scale (mkScaleState (start s) (Some snappedImagePosition)
                                           (length_ s))) ed
      | crop _ => ed
      end
  end.

Definition handleMouseLeave ed : Editor N := set_mouseLocation None ed.

Definition handleSave ed : Editor N :=
  match state ed with
  | crop _ => ed
  | scale s =>
      match start s, end_ s, length_ s with
      | Some start, Some end_, Some length =>
          let xDist := Coordinate.x end_ - Coordinate.x start in
          let yDist := Coordinate.y end_ - Coordinate.y start in
          let ed :=
            set_renderableImage
              (RenderableImage.set_pixelsPerMetre
                 (Math_sqrt (xDist * xDist + yDist * yDist) / length)
                 (renderableImage ed))
              ed in
          emit_onSave (renderableImage ed) ed
      | _, _, _ => ed
      end
  end.

Definition handleNext ed : Editor N :=
  match state ed with
  | crop c =>
      set_state (scale (mkScaleState None None None))
        (set_renderableImage
           (RenderableImage.set_crop (xMin c) (yMin c) (xMax c - xMin c)
                                     (yMax c - yMin c) (renderableImage ed))
           ed)
  | scale _ => ed
  end.

Definition is_shift (code : string) : bool :=
  bool_decide (code = "ShiftLeft"%string)
  || bool_decide (code = "ShiftRight"%string).

Definition handleKeyDown (code : string) ed : Editor N :=
  if is_shift code then set_shiftPressed true ed else ed.

Definition handleKeyUp (code : string) ed : Editor N :=
  if is_shift code then set_shiftPressed false ed else ed.

(** [valueAsNumber] is the number the input holds (NaN when it is empty). *)
Definition handleLengthInputChange (valueAsNumber : N) ed : Editor N :=
  match state ed with
  | scale s =>
      set_state (scale (mkScaleState (start s) (end_ s) (Some valueAsNumber))) ed
  | crop _ => ed
  end.

End Handlers.
End ImageEditor.

(** ** The composer: the canvas component that owns the scene *)

Module Composer.

(** Image records are JavaScript objects: the array [images],
    [selectedImage] and [imageDragState.img] hold references to them, and
    a handler that writes a field through one reference is seen through
    the others.  [ref] is such a reference and [objects] the store of the
    records they point to. *)
Definition ref : Set := nat.

Record ImageDragState (N : Type) : Type := mkImageDragState {
  lastX : N;
  lastY : N;
  img : ref;
}.

Record CanvasDragState (N : Type) : Type := mkCanvasDragState {
  canvas_lastX : N;
  canvas_lastY : N;
}.

(** The component instance.  [localStorage_setItem] lists the calls of
    [window.localStorage.setItem], oldest first, each with its key and the
    [SavedState] that [JSON.stringify] was given; [console_warn] the lines
    printed by [console.warn]. *)
Record Composer (N : Type) : Type := mkComposer {
  canvas : option (DOMRect.t N);
  objects : gmap ref (RenderableImage.t N);
  images : list ref;
  canvasPixelsPerMeter : N;
  renderOrigin : Point.t N;
  selectedImage : option ref;
  loadFinished : bool;
  imageDragState : option (ImageDragState N);
  canvasDragState : option (CanvasDragState N);
  mousePos : option (Point.t N);
  console_warn : list string;
  localStorage_setItem : list (string * list (SavedImage.t N));
}.

Section Handlers.
Context {N : Type} `{!Number N}.
(** [Math.pow] is implementation-approximated (ECMAScript, Math.pow), so
    it is a parameter of the one handler that calls it. *)
Variable Math_pow : N → N → N.
Local Open Scope num_scope.
Implicit Type st : Composer N.

Definition set_objects (v : gmap ref (RenderableImage.t N)) st : Composer N :=
  mkComposer (canvas st) v (images st) (canvasPixelsPerMeter st)
             (renderOrigin st) (selectedImage st) (loadFinished st)
             (imageDragState st) (canvasDragState st) (mousePos st)
             (console_warn st) (localStorage_setItem st).

Definition set_images (v : list ref) st : Composer N :=
  mkComposer (canvas st) (objects st) v (canvasPixelsPerMeter st)
             (renderOrigin st) (selectedImage st) (loadFinished st)
             (imageDragState st) (canvasDragState st) (mousePos st)
             (console_warn st) (localStorage_setItem st).

Definition set_canvasPixelsPerMeter (v : N) st : Composer N :=
  mkComposer (canvas st) (objects st) (images st) v
             (renderOrigin st) (selectedImage st) (loadFinished st)
             (imageDragState st) (canvasDragState st) (mousePos st)
             (console_warn st) (localStorage_setItem st).

Definition set_renderOrigin (v : Point.t N) st : Composer N :=
  mkComposer (canvas st) (objects st) (images st) (canvasPixelsPerMeter st)
             v (selectedImage st) (loadFinished st)
             (imageDragState st) (canvasDragState st) (mousePos st)
             (console_warn st) (localStorage_setItem st).

Definition set_selectedImage (v : option ref) st : Composer N :=
  mkComposer (canvas st) (objects st) (images st) (canvasPixelsPerMeter st)
             (renderOrigin st) v (loadFinished st)
             (imageDragState st) (canvasDragState st) (mousePos st)
             (console_warn st) (localStorage_setItem st).

Definition set_loadFinished (v : bool) st : Composer N :=
  mkComposer (canvas st) (objects st) (images st) (canvasPixelsPerMeter st)
             (renderOrigin st) (selectedImage st) v
             (imageDragState st) (canvasDragState st) (mousePos st)
             (console_warn st) (localStorage_setItem st).

Definition set_imageDragState (v : option (ImageDragState N)) st : Composer N :=
  mkComposer (canvas st) (objects st) (images st) (canvasPixelsPerMeter st)
             (renderOrigin st) (selectedImage st) (loadFinished st)
             v (canvasDragState st) (mousePos st)
             (console_warn st) (localStorage_setItem st).

Definition set_canvasDragState (v : option (CanvasDragState N)) st : Composer N :=
  mkComposer (canvas st) (objects st) (images st) (canvasPixelsPerMeter st)
             (renderOrigin st) (selectedImage st) (loadFinished st)
             (imageDragState st) v (mousePos st)
             (console_warn st) (localStorage_setItem st).

Definition set_mousePos (v : option (Point.t N)) st : Composer N :=
  mkComposer (canvas st) (objects st) (images st) (canvasPixelsPerMeter st)
             (renderOrigin st) (selectedImage st) (loadFinished st)
             (imageDragState st) (canvasDragState st) v
             (console_warn st) (localStorage_setItem st).

Definition log_warn (line : string) st : Composer N :=
  mkComposer (canvas st) (objects st) (images st) (canvasPixelsPerMeter st)
             (renderOrigin st) (selectedImage st) (loadFinished st)
             (imageDragState st) (canvasDragState st) (mousePos st)
             (console_warn st ++ [line]) (localStorage_setItem st).

Definition setItem (key : string) (value : list (SavedImage.t N)) st
  : Composer N :=
  mkComposer (canvas st) (objects st) (images st) (canvasPixelsPerMeter st)
             (renderOrigin st) (selectedImage st) (loadFinished st)
             (imageDragState st) (canvasDragState st) (mousePos st)
             (console_warn st) (localStorage_setItem st ++ [(key, value)]).

Definition SAVE_KEY : string := "state".

(** The records the array [images] holds, in its order. *)
Definition records st : list (RenderableImage.t N) :=
  omap (λ r, objects st !! r) (images st).

(** The component before anything is loaded or added; [rect] is the canvas
    once it is mounted. *)
Definition setup (rect : option (DOMRect.t N)) : Composer N :=
  {| canvas := rect;
     objects := ∅;
     images := [];
     canvasPixelsPerMeter := lit 50;
     renderOrigin := {| Point.x := lit 0; Point.y := lit 0 |};
     selectedImage := None;
     loadFinished := false;
     imageDragState := None;
     canvasDragState := None;
     mousePos := None;
     console_warn := [];
     localStorage_setItem := [] |}.

Definition getImageBoundingBox (image : RenderableImage.t N) : BoundingBox.t N :=
  let originalWidth :=
    RenderableImage.cropWidth image / RenderableImage.pixelsPerMetre image in
  let originalHeight :=
    RenderableImage.cropHeight image / RenderableImage.pixelsPerMetre image in
  if (RenderableImage.rotationDegrees image === lit 0)
     || (RenderableImage.rotationDegrees image === lit 180)
  then
    {| BoundingBox.xMin := RenderableImage.x image;
       BoundingBox.xMax := RenderableImage.x image + originalWidth;
       BoundingBox.yMin := RenderableImage.y image;
       BoundingBox.yMax := RenderableImage.y image + originalHeight |}
  else
    {| BoundingBox.xMin :=
         RenderableImage.x image + originalWidth / lit 2 - originalHeight / lit 2;
       BoundingBox.xMax :=
         RenderableImage.x image + originalWidth / lit 2 + originalHeight / lit 2;
       BoundingBox.yMin :=
         RenderableImage.y image + originalHeight / lit 2 - originalWidth / lit 2;
       BoundingBox.yMax :=
         RenderableImage.y image + originalHeight / lit 2 + originalWidth / lit 2 |}.

(** The warning does not stop the save: there is no [return] after it. *)
Definition saveState st : Composer N :=
  let st :=
    if negb (loadFinished st)
    then log_warn "tried to save before load had finished, ignoring" st
    else st in
  let savedState := map SavedImage.of_image (records st) in
  setItem SAVE_KEY savedState st.

(** [images.push(img)] for a record that is not in the store yet. *)
Definition push (image : RenderableImage.t N) st : Composer N :=
  let r := fresh (dom (objects st)) in
  set_images (images st ++ [r]) (set_objects (<[r := image]> (objects st)) st).

(** [loadState] once its promises are settled: [resolved] is [None] when
    the store has nothing under [SAVE_KEY], and otherwise the saved records
    in their saved order, each with its image element decoded. *)
Definition loadState (resolved : option (list (RenderableImage.t N))) st
  : Composer N :=
  match resolved with
  | Some resolved =>
      set_loadFinished true (foldl (λ st img, push img st) st resolved)
  | None => st
  end.

(** [image] is the record the dialog built; the array takes a reference
    to it. *)
Definition addImageCallback (image : RenderableImage.t N) st : Composer N :=
  let r := fresh (dom (objects st)) in
  let st := set_objects (<[r := image]> (objects st)) st in
  let st := set_images (r :: images st) st in
  saveState st.

Definition handleMouseMove (e : MouseEvent.t N) st : Composer N :=
  match canvas st with
  | None => st
  | Some boundingRect =>
      let st :=
        set_mousePos
          (Some {| Point.x := MouseEvent.clientX e - DOMRect.left boundingRect;
                   Point.y := MouseEvent.clientY e - DOMRect.top boundingRect |})
          st in
      match imageDragState st, canvasDragState st with
      | Some drag, _ =>
          let st :=
            set_objects
              (alter
                 (λ i,
                    RenderableImage.set_position
                      (RenderableImage.x i
                       + (MouseEvent.clientX e - lastX drag) / canvasPixelsPerMeter st)
                      (RenderableImage.y i
                       + (MouseEvent.clientY e - lastY drag) / canvasPixelsPerMeter st)
                      i)
                 (img drag) (objects st))
              st in
          set_imageDragState
            (Some (mkImageDragState (MouseEvent.clientX e) (MouseEvent.clientY e)
                                    (img drag)))
            st
      | None, Some drag =>
          let st :=
            set_renderOrigin
              {| Point.x := Point.x (renderOrigin st)
                            - (MouseEvent.clientX e - canvas_lastX drag)
                              / canvasPixelsPerMeter st;
                 Point.y := Point.y (renderOrigin st)
                            - (MouseEvent.clientY e - canvas_lastY drag)
                              / canvasPixelsPerMeter st |}
              st in
          set_canvasDragState
            (Some (mkCanvasDragState (MouseEvent.clientX e) (MouseEvent.clientY e)))
            st
      | None, None => st
      end
  end.

(** The test [findIndex] runs on each element of [images] in
    [handleMouseDown]. *)
Definition containsPoint (mouseX mouseY : N) (image : RenderableImage.t N)
  : bool :=
  let bbox := getImageBoundingBox image in
  (BoundingBox.xMin bbox <=? mouseX)
  && (BoundingBox.xMax bbox >=? mouseX)
  && (BoundingBox.yMin bbox <=? mouseY)
  && (BoundingBox.yMax bbox >=? mouseY).

(** A predicate on records, run on the record a reference points to. *)
Definition on_record (p : RenderableImage.t N → bool) st (r : ref) : bool :=
  match objects st !! r with
  | Some image => p image
  | None => false
  end.

Definition handleMouseDown (e : MouseEvent.t N) st : Composer N :=
  match canvas st with
  | None => st
  | Some boundingRect =>
      let mouseX :=
        (MouseEvent.clientX e - DOMRect.left boundingRect) / canvasPixelsPerMeter st
        + Point.x (renderOrigin st) in
      let mouseY :=
        (MouseEvent.clientY e - DOMRect.top boundingRect) / canvasPixelsPerMeter st
        + Point.y (renderOrigin st) in
      if bool_decide (MouseEvent.button e = 0%Z) then
        match findIndex (on_record (containsPoint mouseX mouseY) st) (images st) with
        | None => set_selectedImage None st
        | Some imgIdx =>
            match images st !! imgIdx with
            | Some img =>
                let st :=
                  if negb (bool_decide (imgIdx = 0%nat)) then
                    saveState (set_images (img :: delete imgIdx (images st)) st)
                  else st in
                let st :=
                  set_imageDragState
                    (Some (mkImageDragState (MouseEvent.clientX e)
                                            (MouseEvent.clientY e) img))
                    st in
                set_selectedImage (Some img) st
            | None => st    (* not reached: [imgIdx] is an index of [images] *)
            end
        end
      else if bool_decide (MouseEvent.button e = 1%Z) then
        set_canvasDragState
          (Some (mkCanvasDragState (MouseEvent.clientX e) (MouseEvent.clientY e)))
          st
      else st
  end.

Definition handleMouseUp st : Composer N :=
  let st := saveState st in
  let st := set_imageDragState None st in
  set_canvasDragState None st.

Definition handleMouseWheel (e : WheelEvent.t N) st : Composer N :=
  let multiplier := Math_pow (lit 1.3) (WheelEvent.deltaY e * lit (-0.01)) in
  let st :=
    match mousePos st with
    | Some mousePos =>
        let mousePosMetres :=
          {| Point.x := Point.x mousePos / canvasPixelsPerMeter st
                        + Point.x (renderOrigin st);
             Point.y := Point.y mousePos / canvasPixelsPerMeter st
                        + Point.y (renderOrigin st) |} in
        set_renderOrigin
          {| Point.x := Point.x mousePosMetres
                        - (Point.x mousePosMetres - Point.x (renderOrigin st))
                          / multiplier;
             Point.y := Point.y mousePosMetres
                        - (Point.y mousePosMetres - Point.y (renderOrigin st))
                          / multiplier |}
          st
    | None => st
    end in
  set_canvasPixelsPerMeter (canvasPixelsPerMeter st * multiplier) st.

(** A write to a field of [selectedImage.value]. *)
Definition update_selected (f : RenderableImage.t N → RenderableImage.t N) st
  : Composer N :=
  match selectedImage st with
  | Some r => set_objects (alter f r (objects st)) st
  | None => st
  end.

Definition handleRotateLeft st : Composer N :=
  update_selected
    (λ i, RenderableImage.set_rotationDegrees
            ((RenderableImage.rotationDegrees i + lit 270) mod lit 360) i)
    st.

Definition handleRotateRight st : Composer N :=
  update_selected
    (λ i, RenderableImage.set_rotationDegrees
            ((RenderableImage.rotationDegrees i + lit 90) mod lit 360) i)
    st.

(** [answer] is what [prompt] returned: [None] for null.  An empty string
    and null are both falsy, so [||] turns them into undefined. *)
Definition handleRename (answer : option string) st : Composer N :=
  update_selected
    (RenderableImage.set_label
       (match answer with
        | Some text => if bool_decide (text = EmptyString) then None else Some text
        | None => None
        end))
    st.

Definition handleOpacityChange (valueAsNumber : N) st : Composer N :=
  update_selected (RenderableImage.set_opacity valueAsNumber) st.

Definition handleDelete st : Composer N :=
  match selectedImage st with
  | Some selected =>
      match objects st !! selected with
      | Some selectedRecord =>
          match
            findIndex
              (on_record
                 (λ i, RenderableImage.id i === RenderableImage.id selectedRecord)
                 st)
              (images st)
          with
          | Some idx => set_images (delete idx (images st)) st
          | None => st
          end
      | None => st    (* not reached: a reference always has its record *)
      end
  | None => st
  end.

End Handlers.
End Composer.

(** ** The templates: which event runs which handler *)

(** The listeners of ImageEditor.vue: those of its canvas, of the length
    input and of the Next and Save buttons in its template, and the two
    document listeners installed by [onMounted]. *)
Module EditorEvent.

Inductive t (N : Type) : Type :=
  | mousemove (e : MouseEvent.t N)
  | mouseleave
  | mousedown
  | mouseup
  | click (e : MouseEvent.t N)
  | keydown (code : string)
  | keyup (code : string)
  | input (valueAsNumber : N)
  | next
  | save.
Arguments mouseleave {N}.
Arguments mousedown {N}.
Arguments mouseup {N}.
Arguments keydown {N} code.
Arguments keyup {N} code.
Arguments next {N}.
Arguments save {N}.

Section Dispatch.
Context {N : Type} `{!Number N}.
Implicit Type ed : ImageEditor.Editor N.

(** [@click.left] lets only a click of the primary button through; the
    length input is disabled unless the stage is scale and [end] is set; the
    Save button is disabled by [saveDisabled]; the Next button is not shown
    in the scale stage. *)
Definition dispatch (ev : t N) ed : ImageEditor.Editor N :=
  match ev with
  | mousemove e => ImageEditor.handleMouseMove e ed
  | mouseleave => ImageEditor.handleMouseLeave ed
  | mousedown => ImageEditor.handleMouseDown ed
  | mouseup => ImageEditor.handleMouseUp ed
  | click e =>
      if bool_decide (MouseEvent.button e = 0%Z)
      then ImageEditor.handleMouseClick e ed else ed
  | keydown code => ImageEditor.handleKeyDown code ed
  | keyup code => ImageEditor.handleKeyUp code ed
  | input valueAsNumber =>
      match ImageEditor.state ed with
      | ImageEditor.scale s =>
          if defined (ImageEditor.end_ s)
          then ImageEditor.handleLengthInputChange valueAsNumber ed else ed
      | ImageEditor.crop _ => ed
      end
  | next =>
      match ImageEditor.state ed with
      | ImageEditor.crop _ => ImageEditor.handleNext ed
      | ImageEditor.scale _ => ed
      end
  | save => if ImageEditor.saveDisabled ed then ed else ImageEditor.handleSave ed
  end.

(** One event: its handler, then the component's effect. *)
Definition step (ev : t N) ed : ImageEditor.Editor N :=
  ImageEditor.watchEffect (dispatch ev ed).

Definition run (evs : list (t N)) ed : ImageEditor.Editor N :=
  foldl (λ ed ev, step ev ed) ed evs.

End Dispatch.
End EditorEvent.

(** The listeners of the composer: those of its canvas and of its toolbar,
    the callback it gives to AddImageHandler, and the completion of the
    [loadState] that [onMounted] starts. *)
Module ComposerEvent.

Inductive t (N : Type) : Type :=
  | mousedown (e : MouseEvent.t N)
  | mousemove (e : MouseEvent.t N)
  | mouseup
  | wheel (e : WheelEvent.t N)
  | rotateLeft
  | rotateRight
  | opacity (valueAsNumber : N)
  | delete
  | rename (answer : option string)
  | add (image : RenderableImage.t N)
  | loaded (resolved : option (list (RenderableImage.t N))).
Arguments mouseup {N}.
Arguments rotateLeft {N}.
Arguments rotateRight {N}.
Arguments delete {N}.
Arguments rename {N} answer.

Section Dispatch.
Context {N : Type} `{!Number N}.
Variable Math_pow : N → N → N.
Implicit Type st : Composer.Composer N.

Definition step (ev : t N) st : Composer.Composer N :=
  match ev with
  | mousedown e => Composer.handleMouseDown e st
  | mousemove e => Composer.handleMouseMove e st
  | mouseup => Composer.handleMouseUp st
  | wheel e => Composer.handleMouseWheel Math_pow e st
  | rotateLeft => Composer.handleRotateLeft st
  | rotateRight => Composer.handleRotateRight st
  | opacity valueAsNumber => Composer.handleOpacityChange valueAsNumber st
  | delete => Composer.handleDelete st
  | rename answer => Composer.handleRename answer st
  | add image => Composer.addImageCallback image st
  | loaded resolved => Composer.loadState resolved st
  end.

Definition run (evs : list (t N)) st : Composer.Composer N :=
  foldl (λ st ev, step ev st) st evs.

End Dispatch.
End ComposerEvent.

(** ** What the properties speak about *)

(** An infinity or a NaN: what the specification calls an infinite or
    undefined number. *)
Definition infinite_or_undefined (v : float) : bool :=
  is_infinity v || is_nan v.

(** The bounds of the crop stage are in order. *)
Definition crop_in_order {N : Type} `{!Number N} (ed : ImageEditor.Editor N)
  : bool :=
  match ImageEditor.state ed with
  | ImageEditor.crop c =>
      (ImageEditor.xMin c <=? ImageEditor.xMax c)%num
      && (ImageEditor.yMin c <=? ImageEditor.yMax c)%num
  | ImageEditor.scale _ => true
  end.

(** The world point under a canvas point, as [handleMouseDown] and
    [handleMouseWheel] compute it: canvas pixels over pixels per metre,
    plus the origin. *)
Definition worldPoint {N : Type} `{!Number N} (st : Composer.Composer N)
    (p : Point.t N) : Point.t N :=
  {| Point.x := (Point.x p / Composer.canvasPixelsPerMeter st
                 + Point.x (Composer.renderOrigin st))%num;
     Point.y := (Point.y p / Composer.canvasPixelsPerMeter st
                 + Point.y (Composer.renderOrigin st))%num |}.

(** ** Sample inputs

    Concrete values of the running program (binary64), used by the
    examples below. *)

Module Sample.
Local Open Scope float_scope.

(** A pasted image of 1200 by 700 pixels: it fills the 1200 by 700
    canvas at scale 1. *)
Definition plan : HTMLImageElement.t float :=
  {| HTMLImageElement.src := "data:image/png;base64,plan";
     HTMLImageElement.width := 1200;
     HTMLImageElement.height := 700 |}.

(** A canvas whose top left corner is the top left corner of the
    viewport. *)
Definition at_origin : DOMRect.t float := {| DOMRect.left := 0; DOMRect.top := 0 |}.

Definition pointer (clientX clientY : float) : MouseEvent.t float :=
  {| MouseEvent.clientX := clientX; MouseEvent.clientY := clientY;
     MouseEvent.button := 0 |}.

Definition middle_button (clientX clientY : float) : MouseEvent.t float :=
  {| MouseEvent.clientX := clientX; MouseEvent.clientY := clientY;
     MouseEvent.button := 1 |}.

(** *** The dialog *)

(** The dialog as it opens on [plan]. *)
Definition editor : ImageEditor.Editor float :=
  ImageEditor.setup plan 1 (Some at_origin).

(** A pasted image of 1240 by 740 pixels: cropped by the 20 pixels the
    dialog starts with, it fills the canvas at scale 1. *)
Definition sheet : HTMLImageElement.t float :=
  {| HTMLImageElement.src := "data:image/png;base64,sheet";
     HTMLImageElement.width := 1240;
     HTMLImageElement.height := 740 |}.

(** Calibrating [sheet]: Next, then, with shift held, a click on the canvas
    point ([sx], [sy]) and one on ([ex], [ey]), then [length] typed into
    the input. *)
Definition measuring (sx sy ex ey length : float) : ImageEditor.Editor float :=
  ImageEditor.handleLengthInputChange length
    (ImageEditor.handleMouseClick (pointer ex ey)
       (ImageEditor.handleMouseClick (pointer sx sy)
          (ImageEditor.handleKeyDown "ShiftLeft"
             (ImageEditor.handleNext
                (ImageEditor.setup sheet 1 (Some at_origin)))))).

(** Grab the top edge of the fresh crop rectangle and pull it down to
    y = 690. *)
Definition pull_top_edge_down : ImageEditor.Editor float :=
  ImageEditor.handleMouseMove (pointer 600 690)
    (ImageEditor.handleMouseDown
       (ImageEditor.handleMouseMove (pointer 600 20) editor)).

(** Pull the top edge up to y = 5, let go, then grab the right edge and
    pull it left to x = 10. *)
Definition pull_right_edge_left : ImageEditor.Editor float :=
  ImageEditor.handleMouseMove (pointer 10 300)
    (ImageEditor.handleMouseDown
       (ImageEditor.handleMouseMove (pointer 1180 300)
          (ImageEditor.handleMouseUp
             (ImageEditor.handleMouseMove (pointer 600 5)
                (ImageEditor.handleMouseDown
                   (ImageEditor.handleMouseMove (pointer 600 20) editor)))))).

(** *** The scene *)

(** A calibrated image of 4 by 2 metres (400 by 200 pixels at 100 pixels
    per metre) with its top left corner at ([x], 0). *)
Definition placed (id x rotationDegrees : float) : RenderableImage.t float :=
  {| RenderableImage.image := plan;
     RenderableImage.x := x;
     RenderableImage.y := 0;
     RenderableImage.cropOffsetX := 0;
     RenderableImage.cropOffsetY := 0;
     RenderableImage.cropWidth := 400;
     RenderableImage.cropHeight := 200;
     RenderableImage.pixelsPerMetre := 100;
     RenderableImage.label := None;
     RenderableImage.id := id;
     RenderableImage.rotationDegrees := rotationDegrees;
     RenderableImage.opacity := 1 |}.

(** Five images side by side, loaded from the store: the references 0 to
    4, in this order, for the images at x = 0, 10, 20, 30 and 40. *)
Definition scene : Composer.Composer float :=
  Composer.loadState
    (Some [placed 1 0 0; placed 2 10 0; placed 3 20 0; placed 4 30 0;
           placed 5 40 0])
    (Composer.setup (Some at_origin)).

(** The scene after a press on the third image: canvas point (1050, 50) is
    the world point (21, 1). *)
Definition third_selected : Composer.Composer float :=
  Composer.handleMouseUp (Composer.handleMouseDown (pointer 1050 50) scene).

(** The empty scene panned by one pixel with the middle button, so that
    the origin is at x = 0.02, and the pointer then resting on the canvas
    point (2, 0). *)
Definition panned : Composer.Composer float :=
  Composer.handleMouseMove (pointer 2 0)
    (Composer.handleMouseUp
       (Composer.handleMouseMove (pointer (-1) 0)
          (Composer.handleMouseDown (middle_button 0 0)
             (Composer.setup (Some at_origin))))).

(** A wheel event that scrolls sideways only. *)
Definition no_vertical_scroll : WheelEvent.t float := {| WheelEvent.deltaY := 0 |}.

(** The empty scene with the pointer resting on the canvas point (1, 0),
    and one notch of the wheel away from the user. *)
Definition pointer_at_one : Composer.Composer float :=
  Composer.handleMouseMove (pointer 1 0) (Composer.setup (Some at_origin)).

Definition zoom_in : WheelEvent.t float := {| WheelEvent.deltaY := -100 |}.

(** *** The scene in exact arithmetic *)

(** The empty scene with the pointer resting on the canvas point
    (100, 40), and one notch of the wheel away from the user. *)
Definition hovering : Composer.Composer R :=
  Composer.set_mousePos (Some {| Point.x := 100%R; Point.y := 40%R |})
                        (Composer.setup None).

Definition one_notch_up : WheelEvent.t R := {| WheelEvent.deltaY := (-100)%R |}.
End Sample.

(** ** More of what the properties speak about *)

(** The bound of the crop rectangle a handle stands for, and the pointer
    coordinate it is compared with. *)
Definition bound {N : Type} (h : CropHandle.t) (c : ImageEditor.CropState N) : N :=
  match h with
  | CropHandle.xMin => ImageEditor.xMin c
  | CropHandle.xMax => ImageEditor.xMax c
  | CropHandle.yMin => ImageEditor.yMin c
  | CropHandle.yMax => ImageEditor.yMax c
  end.


(** The image point of a click of the scale stage, before snapping. *)
Definition clickedPoint {N : Type} `{!Number N} (e : MouseEvent.t N)
    (boundingRect : DOMRect.t N) (ed : ImageEditor.Editor N) : Coordinate.t N :=
  {| Coordinate.system := Coordinate.image;
     Coordinate.x := ((MouseEvent.clientX e - DOMRect.left boundingRect)
                      / ImageEditor.imageToCanvasScaleFactor ed)%num;
     Coordinate.y := ((MouseEvent.clientY e - DOMRect.top boundingRect)
                      / ImageEditor.imageToCanvasScaleFactor ed)%num |}.

(** The record of a dialog set up for [img] with the id [newId], once its
    crop and its scale are filled in. *)
Definition calibrated {N : Type} `{!Number N} (img : HTMLImageElement.t N)
    (newId : N) (cropOffsetX cropOffsetY cropWidth cropHeight pixelsPerMetre : N)
  : RenderableImage.t N :=
  {| RenderableImage.image := img;
     RenderableImage.x := lit 0;
     RenderableImage.y := lit 0;
     RenderableImage.cropOffsetX := cropOffsetX;
     RenderableImage.cropOffsetY := cropOffsetY;
     RenderableImage.cropWidth := cropWidth;
     RenderableImage.cropHeight := cropHeight;
     RenderableImage.pixelsPerMetre := pixelsPerMetre;
     RenderableImage.label := None;
     RenderableImage.id := newId;
     RenderableImage.rotationDegrees := lit 0;
     RenderableImage.opacity := lit 1 |}.

(** What the dialog set up for [img] and [newId] keeps true, event after
    event: nothing is printed; in the crop stage nothing is handed out and
    the record is the initial one; in the scale stage the points are image
    coordinates, an end or a length comes with a start, and the record and
    all records handed out differ in their scale only. *)
Definition dialog_invariant {N : Type} `{!Number N} (img : HTMLImageElement.t N)
    (newId : N) (ed : ImageEditor.Editor N) : Prop :=
  ImageEditor.console_error ed = []
  ∧ match ImageEditor.state ed with
    | ImageEditor.crop _ =>
        ImageEditor.onSave ed = []
        ∧ ImageEditor.renderableImage ed
          = calibrated img newId (lit 0) (lit 0) (HTMLImageElement.width img)
                       (HTMLImageElement.height img) (lit 0)
    | ImageEditor.scale s =>
        (∀ p, ImageEditor.start s = Some p
              → Coordinate.system p = Coordinate.image)
        ∧ (∀ p, ImageEditor.end_ s = Some p
                → Coordinate.system p = Coordinate.image)
        ∧ (defined (ImageEditor.end_ s) = true
           → defined (ImageEditor.start s) = true)
        ∧ (defined (ImageEditor.length_ s) = true
           → defined (ImageEditor.start s) = true)
        ∧ ∃ ox oy w h,
            (∃ ppm, ImageEditor.renderableImage ed = calibrated img newId ox oy w h ppm)
            ∧ ∀ r, r ∈ ImageEditor.onSave ed
                   → ∃ ppm, r = calibrated img newId ox oy w h ppm
    end.

(** Every reference the composer holds has its record, and no image is
    twice in the sequence. *)
Definition scene_well_formed {N : Type} (st : Composer.Composer N) : Prop :=
  (∀ r, r ∈ Composer.images st → is_Some (Composer.objects st !! r))
  ∧ NoDup (Composer.images st)
  ∧ (∀ r, Composer.selectedImage st = Some r
          → is_Some (Composer.objects st !! r))
  ∧ (∀ d, Composer.imageDragState st = Some d
          → is_Some (Composer.objects st !! Composer.img d)).

(** What [loadState] resolves a saved element to once its image element
    [img] is decoded: [{ ...elem, image: img }]. *)
Definition resolve {N : Type} (elem : SavedImage.t N) (img : HTMLImageElement.t N)
  : RenderableImage.t N :=
  {| RenderableImage.image := img;
     RenderableImage.x := SavedImage.x elem;
     RenderableImage.y := SavedImage.y elem;
     RenderableImage.cropOffsetX := SavedImage.cropOffsetX elem;
     RenderableImage.cropOffsetY := SavedImage.cropOffsetY elem;
     RenderableImage.cropWidth := SavedImage.cropWidth elem;
     RenderableImage.cropHeight := SavedImage.cropHeight elem;
     RenderableImage.pixelsPerMetre := SavedImage.pixelsPerMetre elem;
     RenderableImage.label := SavedImage.label elem;
     RenderableImage.id := SavedImage.id elem;
     RenderableImage.rotationDegrees := SavedImage.rotationDegrees elem;
     RenderableImage.opacity := SavedImage.opacity elem |}.

(** [st'] is [st] but for the record of [r] and for what was printed and
    written: the same sequence, selection, camera and drags, and every
    other record as it was. *)
Definition untouched_but {N : Type} (r : option Composer.ref)
    (st' st : Composer.Composer N) : Prop :=
  Composer.images st' = Composer.images st
  ∧ Composer.selectedImage st' = Composer.selectedImage st
  ∧ Composer.canvasPixelsPerMeter st' = Composer.canvasPixelsPerMeter st
  ∧ Composer.renderOrigin st' = Composer.renderOrigin st
  ∧ Composer.imageDragState st' = Composer.imageDragState st
  ∧ Composer.canvasDragState st' = Composer.canvasDragState st
  ∧ ∀ r', r ≠ Some r' → Composer.objects st' !! r' = Composer.objects st !! r'.

(** ** More sample inputs *)

Module Sample2.
Local Open Scope float_scope.

(** Calibrating [Sample.sheet] without shift: Next, a click on the canvas
    point (10, 10) and one on (50, 12), which is stored as (50, 10). *)
Definition line_drawn : ImageEditor.Editor float :=
  ImageEditor.handleMouseClick (Sample.pointer 50 12)
    (ImageEditor.handleMouseClick (Sample.pointer 10 10)
       (ImageEditor.handleNext
          (ImageEditor.setup Sample.sheet 1 (Some Sample.at_origin)))).



End Sample2.

(** * Properties *)

Unset Implicit Arguments.
Unset Maximal Implicit Insertion.

(** Case analysis on the IEEE datum behind a double. *)
Ltac by_cases_on v :=
  destruct (Prim2SF v) as [[]|[]| |[] ? ?];
  try discriminate; try reflexivity; eauto 6.

(** ** The calibration dialog *)

Section EditorLaws.
Import ImageEditor.
Context {N : Type} `{!Number N}.
Local Open Scope num_scope.
Implicit Type ed : Editor N.

Lemma snapLine_no_start (cursor : Coordinate.t N) ed :
  snapLine None cursor ed = (cursor, ed).
Proof. reflexivity. Qed.

Lemma snapLine_shift (start : option (Coordinate.t N)) cursor ed :
  shiftPressed ed = true → snapLine start cursor ed = (cursor, ed).
Proof. intros Hshift. destruct start; simpl; [rewrite Hshift|]; reflexivity. Qed.

Lemma snapLine_same_system (start cursor : Coordinate.t N) ed :
  shiftPressed ed = false →
  Coordinate.system start = Coordinate.system cursor →
  snapLine (Some start) cursor ed =
    (if Math_abs (Coordinate.x cursor - Coordinate.x start)
        >? Math_abs (Coordinate.y cursor - Coordinate.y start)
     then Coordinate.mk (Coordinate.system cursor)
                        (Coordinate.x cursor) (Coordinate.y start)
     else Coordinate.mk (Coordinate.system cursor)
                        (Coordinate.x start) (Coordinate.y cursor),
     ed).
Proof.
  intros Hshift Hsystem. unfold snapLine. rewrite Hshift.
  rewrite bool_decide_eq_true_2 by exact Hsystem. simpl.
  case (num_lt _ _); reflexivity.
Qed.

(** Whatever it does, [snapLine] answers in the system of the cursor: the
    points [handleMouseClick] stores are image coordinates. *)
Lemma snapLine_system (start : option (Coordinate.t N)) cursor ed :
  Coordinate.system (fst (snapLine start cursor ed)) = Coordinate.system cursor.
Proof.
  unfold snapLine. destruct start as [start|]; [|reflexivity].
  destruct (shiftPressed ed); [reflexivity|].
  destruct (negb _); [reflexivity|]. simpl.
  case (num_lt _ _); reflexivity.
Qed.

(** [handleSave] does nothing unless the three fields are there ... *)
Lemma handleSave_disabled ed :
  saveDisabled ed = true → handleSave ed = ed.
Proof.
  unfold saveDisabled, handleSave. destruct (state ed) as [c|s]; [reflexivity|].
  destruct (start s), (end_ s), (length_ s); simpl; congruence.
Qed.

(** ... and the predicate behind the Save button says exactly when they
    are. *)
Lemma saveDisabled_false ed :
  saveDisabled ed = false ↔
  ∃ s a b len, state ed = scale s ∧ start s = Some a ∧ end_ s = Some b
               ∧ length_ s = Some len.
Proof.
  unfold saveDisabled. split.
  - destruct (state ed) as [c|s]; [discriminate|].
    destruct (start s) as [a|] eqn:Ha, (end_ s) as [b|] eqn:Hb,
             (length_ s) as [len|] eqn:Hlen; simpl; try discriminate.
    intros _. exists s, a, b, len. auto.
  - intros (s & a & b & len & -> & -> & -> & ->). reflexivity.
Qed.

Lemma handleSave_scale ed s a b len :
  state ed = scale s → start s = Some a → end_ s = Some b →
  length_ s = Some len →
  let xDist := Coordinate.x b - Coordinate.x a in
  let yDist := Coordinate.y b - Coordinate.y a in
  let saved :=
    RenderableImage.set_pixelsPerMetre
      (Math_sqrt (xDist * xDist + yDist * yDist) / len) (renderableImage ed) in
  handleSave ed = emit_onSave saved (set_renderableImage saved ed).
Proof.
  intros Hstate Ha Hb Hlen. unfold handleSave.
  rewrite Hstate, Ha, Hb, Hlen. reflexivity.
Qed.
End EditorLaws.

Section EditorClaims.
Import ImageEditor.
Local Open Scope float_scope.

(** *** Snapping *)

(** C7: with shift not pressed and both coordinates in one system,
    [snapLine] answers (cursor.x, start.y) when |dx| > |dy| and
    (start.x, cursor.y) otherwise; with shift pressed or without a start
    it answers the cursor unchanged.  From (10,10), the cursor (10,50)
    snaps to (10,50) and the cursor (50,10) to (50,10). *)
Theorem snapLine_axis_aligned :
  (∀ (N : Type) (HN : Number N) (ed : Editor N) (start cursor : Coordinate.t N),
     (shiftPressed ed = false →
      Coordinate.system start = Coordinate.system cursor →
      fst (snapLine (Some start) cursor ed) =
        if (Math_abs (Coordinate.x cursor - Coordinate.x start)
            >? Math_abs (Coordinate.y cursor - Coordinate.y start))%num
        then Coordinate.mk (Coordinate.system cursor)
                           (Coordinate.x cursor) (Coordinate.y start)
        else Coordinate.mk (Coordinate.system cursor)
                           (Coordinate.x start) (Coordinate.y cursor))
     ∧ (shiftPressed ed = true →
        fst (snapLine (Some start) cursor ed) = cursor)
     ∧ fst (snapLine None cursor ed) = cursor)
  ∧ fst (snapLine (Some (Coordinate.mk Coordinate.image 10 10))
                  (Coordinate.mk Coordinate.image 10 50) Sample.editor)
    = Coordinate.mk Coordinate.image 10 50
  ∧ fst (snapLine (Some (Coordinate.mk Coordinate.image 10 10))
                  (Coordinate.mk Coordinate.image 50 10) Sample.editor)
    = Coordinate.mk Coordinate.image 50 10.
Proof.
  split; [|split; vm_compute; reflexivity].
  intros N HN ed start cursor. repeat split.
  - intros Hshift Hsystem. rewrite snapLine_same_system by assumption.
    reflexivity.
  - intros Hshift. rewrite snapLine_shift by assumption. reflexivity.
Qed.

Lemma snapLine_axis_aligned_witness :
  fst (snapLine (Some (Coordinate.mk Coordinate.image 10 10))
                (Coordinate.mk Coordinate.image 13 50) Sample.editor)
  = Coordinate.mk Coordinate.image 10 50.
Proof.
  exact (proj1 (proj1 snapLine_axis_aligned float _ Sample.editor
                 (Coordinate.mk Coordinate.image 10 10)
                 (Coordinate.mk Coordinate.image 13 50))
           eq_refl eq_refl).
Defined.

(** C9: with shift not pressed and a start whose system differs from the
    cursor's, [snapLine] returns: it answers the cursor as it was given,
    and the console has one more line, the mismatch with the two systems;
    nothing else of the dialog changes. *)
Theorem snapLine_system_mismatch (N : Type) (HN : Number N) (ed : Editor N)
    (start cursor : Coordinate.t N) :
  shiftPressed ed = false →
  Coordinate.system start ≠ Coordinate.system cursor →
  fst (snapLine (Some start) cursor ed) = cursor
  ∧ console_error (snd (snapLine (Some start) cursor ed))
    = console_error ed
      ++ [("Coordinate system mismatch: "
           ++ Coordinate.to_string (Coordinate.system start)
           ++ " and "
           ++ Coordinate.to_string (Coordinate.system cursor))%string]
  ∧ canvas (snd (snapLine (Some start) cursor ed)) = canvas ed
  ∧ cursorClass (snd (snapLine (Some start) cursor ed)) = cursorClass ed
  ∧ renderableImage (snd (snapLine (Some start) cursor ed)) = renderableImage ed
  ∧ state (snd (snapLine (Some start) cursor ed)) = state ed
  ∧ mouseLocation (snd (snapLine (Some start) cursor ed)) = mouseLocation ed
  ∧ shiftPressed (snd (snapLine (Some start) cursor ed)) = shiftPressed ed
  ∧ onSave (snd (snapLine (Some start) cursor ed)) = onSave ed.
Proof.
  intros Hshift Hsystem. unfold snapLine. rewrite Hshift.
  rewrite bool_decide_eq_false_2 by exact Hsystem. simpl.
  split_and!; try reflexivity. exact Hshift.
Qed.

Lemma snapLine_system_mismatch_witness :
  fst (snapLine (Some (Coordinate.mk Coordinate.canvas 10 10))
                (Coordinate.mk Coordinate.image 50 12) Sample.editor)
  = Coordinate.mk Coordinate.image 50 12
  ∧ console_error
      (snd (snapLine (Some (Coordinate.mk Coordinate.canvas 10 10))
                     (Coordinate.mk Coordinate.image 50 12) Sample.editor))
    = ["Coordinate system mismatch: canvas and image"%string].
Proof.
  destruct (@snapLine_system_mismatch float _ Sample.editor
              (Coordinate.mk Coordinate.canvas 10 10)
              (Coordinate.mk Coordinate.image 50 12))
    as (Hcursor & Hconsole & _).
  - reflexivity.
  - simpl. discriminate.
  - split; [exact Hcursor|exact Hconsole].
Defined.
End EditorClaims.

(** *** Saving a calibration *)

Section Binary64Facts.
Local Open Scope float_scope.

Lemma eqb_zero_inv (v : float) :
  (v =? 0) = true → ∃ s, Prim2SF v = S754_zero s.
Proof.
  rewrite FloatAxioms.eqb_spec. change (Prim2SF 0) with (S754_zero false).
  by_cases_on v.
Qed.

(** Whatever is divided by a zero is an infinity or a NaN. *)
Lemma div_by_zero (d v : float) :
  (v =? 0) = true → infinite_or_undefined (d / v) = true.
Proof.
  intros [s Hv]%eqb_zero_inv.
  unfold infinite_or_undefined, is_infinity, is_nan.
  rewrite !FloatAxioms.eqb_spec, FloatAxioms.abs_spec, FloatAxioms.div_spec, Hv.
  change (Prim2SF infinity) with (S754_infinity false).
  destruct s; by_cases_on d.
Qed.

Lemma is_finite_inv (v : float) :
  is_finite v = true →
  (∃ s, Prim2SF v = S754_zero s) ∨ (∃ s m e, Prim2SF v = S754_finite s m e).
Proof.
  unfold is_finite, is_nan, is_infinity.
  rewrite !FloatAxioms.eqb_spec, FloatAxioms.abs_spec.
  change (Prim2SF infinity) with (S754_infinity false).
  by_cases_on v.
Qed.

(** A finite number minus itself is +0. *)
Lemma sub_diag (v : float) : is_finite v = true → v - v = 0.
Proof.
  intros Hfinite. apply Prim2SF_inj. rewrite FloatAxioms.sub_spec.
  change (Prim2SF 0) with (S754_zero false).
  destruct (is_finite_inv v Hfinite) as [[s ->]|(s & m & e & ->)].
  - destruct s; reflexivity.
  - unfold SF64sub, SFsub. rewrite Z.sub_diag. reflexivity.
Qed.

(** Zero divided by a number that is neither zero nor NaN is a zero. *)
Lemma zero_div (v : float) :
  is_nan v = false → (v =? 0) = false → (0 / v =? 0) = true.
Proof.
  unfold is_nan. rewrite !FloatAxioms.eqb_spec, FloatAxioms.div_spec.
  change (Prim2SF 0) with (S754_zero false).
  by_cases_on v.
Qed.
End Binary64Facts.

Section SaveClaims.
Import ImageEditor.
Local Open Scope float_scope.

(** C3: when save runs in the scale stage with start, end and length
    defined, the record handed to [onSave] is the dialog's record with
    pixelsPerMetre = sqrt((end.x-start.x)^2 + (end.y-start.y)^2) / length,
    start and end being the image-pixel coordinates the clicks stored.
    With start (0,0), end (300,0) and length 3 the value is 100. *)
Theorem handleSave_pixelsPerMetre :
  (∀ (N : Type) (HN : Number N) (ed : Editor N) (s : ScaleState N)
     (a b : Coordinate.t N) (len : N),
     state ed = scale s → start s = Some a → end_ s = Some b →
     length_ s = Some len →
     let xDist := (Coordinate.x b - Coordinate.x a)%num in
     let yDist := (Coordinate.y b - Coordinate.y a)%num in
     onSave (handleSave ed) =
       onSave ed
       ++ [RenderableImage.set_pixelsPerMetre
             (Math_sqrt (xDist * xDist + yDist * yDist) / len)%num
             (renderableImage ed)])
  ∧ state (Sample.measuring 0 0 300 0 3)
    = scale {| start := Some (Coordinate.mk Coordinate.image 0 0);
               end_ := Some (Coordinate.mk Coordinate.image 300 0);
               length_ := Some 3 |}
  ∧ RenderableImage.pixelsPerMetre
      <$> onSave (handleSave (Sample.measuring 0 0 300 0 3)) = [100].
Proof.
  split; [|split; vm_compute; reflexivity].
  intros N HN ed s a b len Hstate Ha Hb Hlen xDist yDist.
  rewrite (handleSave_scale ed _ _ _ _ Hstate Ha Hb Hlen). reflexivity.
Qed.

Lemma handleSave_pixelsPerMetre_witness :
  RenderableImage.pixelsPerMetre
    <$> onSave (handleSave (Sample.measuring 0 0 3 4 2)) = [2.5].
Proof.
  rewrite (proj1 handleSave_pixelsPerMetre float _
             (Sample.measuring 0 0 3 4 2) _
             (Coordinate.mk Coordinate.image 0 0)
             (Coordinate.mk Coordinate.image 3 4) 2
             eq_refl eq_refl eq_refl eq_refl).
  vm_compute. reflexivity.
Defined.

(** C8, as the code has it: the only gate on completing a calibration is
    that start, end and length are defined, and saving then always hands
    a record to [onSave].  A zero length gives a pixelsPerMetre that is
    infinite or NaN.  A zero-length line with a length that is neither
    zero nor NaN gives the pixelsPerMetre 0, a finite number. *)
Theorem calibration_completion_only_needs_defined :
  (∀ (N : Type) (HN : Number N) (ed : Editor N),
     (saveDisabled ed = false ↔
      ∃ s a b len, state ed = scale s ∧ start s = Some a
                   ∧ end_ s = Some b ∧ length_ s = Some len)
     ∧ (saveDisabled ed = true → handleSave ed = ed)
     ∧ (saveDisabled ed = false →
        ∃ saved, onSave (handleSave ed) = onSave ed ++ [saved]))
  ∧ (∀ (ed : Editor float) s a b len,
       state ed = scale s → start s = Some a → end_ s = Some b →
       length_ s = Some len → (len =? 0) = true →
       ∃ saved, onSave (handleSave ed) = onSave ed ++ [saved]
                ∧ infinite_or_undefined (RenderableImage.pixelsPerMetre saved)
                  = true)
  ∧ (∀ (ed : Editor float) s a len,
       state ed = scale s → start s = Some a → end_ s = Some a →
       length_ s = Some len →
       is_finite (Coordinate.x a) = true → is_finite (Coordinate.y a) = true →
       is_nan len = false → (len =? 0) = false →
       ∃ saved, onSave (handleSave ed) = onSave ed ++ [saved]
                ∧ (RenderableImage.pixelsPerMetre saved =? 0) = true
                ∧ infinite_or_undefined (RenderableImage.pixelsPerMetre saved)
                  = false).
Proof.
  split; [|split].
  - intros N HN ed. split; [apply saveDisabled_false|].
    split; [apply handleSave_disabled|].
    intros (s & a & b & len & Hstate & Ha & Hb & Hlen)%saveDisabled_false.
    rewrite (handleSave_scale ed _ _ _ _ Hstate Ha Hb Hlen). simpl. eauto.
  - intros ed s a b len Hstate Ha Hb Hlen Hzero.
    rewrite (handleSave_scale ed _ _ _ _ Hstate Ha Hb Hlen). simpl.
    eexists. split; [reflexivity|]. simpl. apply div_by_zero, Hzero.
  - intros ed s a len Hstate Ha Hb Hlen Hx Hy Hnan Hzero.
    rewrite (handleSave_scale ed _ _ _ _ Hstate Ha Hb Hlen). simpl.
    eexists. split; [reflexivity|]. simpl.
    rewrite (sub_diag _ Hx), (sub_diag _ Hy).
    change (sqrt (0 * 0 + 0 * 0)) with 0.
    pose proof (zero_div len Hnan Hzero) as Hppm.
    split; [exact Hppm|].
    unfold infinite_or_undefined, is_infinity, is_nan.
    destruct (eqb_zero_inv _ Hppm) as [sg Hsg].
    rewrite !FloatAxioms.eqb_spec, FloatAxioms.abs_spec, Hsg.
    destruct sg; reflexivity.
Qed.

Lemma calibration_completion_only_needs_defined_witness :
  (∃ saved, onSave (handleSave (Sample.measuring 5 5 8 9 0)) = [saved]
            ∧ infinite_or_undefined (RenderableImage.pixelsPerMetre saved)
              = true)
  ∧ (∃ saved, onSave (handleSave (Sample.measuring 5 5 5 5 3)) = [saved]
              ∧ (RenderableImage.pixelsPerMetre saved =? 0) = true
              ∧ infinite_or_undefined (RenderableImage.pixelsPerMetre saved)
                = false).
Proof.
  split.
  - exact (proj1 (proj2 calibration_completion_only_needs_defined)
             (Sample.measuring 5 5 8 9 0) _
             (Coordinate.mk Coordinate.image 5 5)
             (Coordinate.mk Coordinate.image 8 9) 0
             eq_refl eq_refl eq_refl eq_refl eq_refl).
  - exact (proj2 (proj2 calibration_completion_only_needs_defined)
             (Sample.measuring 5 5 5 5 3) _
             (Coordinate.mk Coordinate.image 5 5) 3
             eq_refl eq_refl eq_refl eq_refl eq_refl eq_refl eq_refl eq_refl).
Defined.

(** C8 as stated fails for a zero-length line: drawn from (5,5) to (5,5)
    with length 3, the calibration can be saved and the record handed to
    [onSave] has pixelsPerMetre 0, which is neither infinite nor NaN. *)
Lemma zero_length_line_gives_zero :
  saveDisabled (Sample.measuring 5 5 5 5 3) = false
  ∧ RenderableImage.pixelsPerMetre
      <$> onSave (handleSave (Sample.measuring 5 5 5 5 3)) = [0]
  ∧ infinite_or_undefined 0 = false.
Proof. vm_compute. repeat split. Qed.
End SaveClaims.

(** *** The crop rectangle *)

Section CropLaws.
Import ImageEditor.
Local Open Scope R_scope.

(** The clamps of [xMin] and [yMax] compare with the other bound of their
    own axis: in exact arithmetic a drag that holds none of the other two
    handles keeps the rectangle in order. *)
Lemma dragCropHandles_same_axis_clamps (m : Coordinate.t R) (scaleFactor : R)
    (c : CropState R) :
  includes (currentCropHandles c) CropHandle.xMax = false →
  includes (currentCropHandles c) CropHandle.yMin = false →
  xMin c <= xMax c → yMin c <= yMax c →
  xMin (dragCropHandles m scaleFactor c) <= xMax (dragCropHandles m scaleFactor c)
  ∧ yMin (dragCropHandles m scaleFactor c) <= yMax (dragCropHandles m scaleFactor c).
Proof.
  intros HxMax HyMin Hx Hy. unfold dragCropHandles.
  destruct (includes (currentCropHandles c) CropHandle.xMin); simpl;
    rewrite HxMax; simpl; rewrite HyMin; simpl;
    destruct (includes (currentCropHandles c) CropHandle.yMax); simpl;
    split; try assumption; try apply Rmin_r; try apply Rmax_r.
Qed.
End CropLaws.

Section CropClaims.
Import ImageEditor.
Local Open Scope float_scope.

(** C1 does not hold of the code: [handleMouseMove] clamps a dragged
    [yMin] against [xMax] and a dragged [xMax] against [yMin].  On a 1200
    by 700 image the rectangle starts as 20..1180 by 20..680, in order;
    pulling its top edge down to 690 leaves yMin = 690 above yMax = 680,
    and pulling its right edge left to 10, once yMin is 5, leaves
    xMax = 10 below xMin = 20. *)
Theorem crop_rectangle_inverts :
  crop_in_order Sample.editor = true
  ∧ state Sample.pull_top_edge_down
    = crop {| xMin := 20; xMax := 1180; yMin := 690; yMax := 680;
              currentCropHandles := [CropHandle.yMin] |}
  ∧ crop_in_order Sample.pull_top_edge_down = false
  ∧ state Sample.pull_right_edge_left
    = crop {| xMin := 20; xMax := 10; yMin := 5; yMax := 680;
              currentCropHandles := [CropHandle.xMax] |}
  ∧ crop_in_order Sample.pull_right_edge_left = false.
Proof. vm_compute. repeat split. Qed.
End CropClaims.

(** ** The scene *)

Section FindIndex.
Context {A : Type} (p : A → bool).
Implicit Type l : list A.

Lemma findIndex_None l :
  findIndex p l = None ↔ ∀ a, a ∈ l → p a = false.
Proof.
  induction l as [|a l IH]; simpl.
  - split; [|reflexivity]. intros _ a Ha. inversion Ha.
  - destruct (p a) eqn:Hpa.
    + split; [discriminate|]. intros Hall.
      rewrite Hall in Hpa by apply list_elem_of_here. discriminate.
    + rewrite fmap_None, IH. split.
      * intros Hall b [->|Hb]%elem_of_cons; auto.
      * intros Hall b Hb. apply Hall, list_elem_of_further, Hb.
Qed.

(** The answer is the first index whose element passes the test. *)
Lemma findIndex_Some l i :
  findIndex p l = Some i ↔
  ∃ a, l !! i = Some a ∧ p a = true
       ∧ ∀ j b, j < i → l !! j = Some b → p b = false.
Proof.
  revert i. induction l as [|a l IH]; intros i; simpl.
  - split; [discriminate|]. intros (b & Hb & _). discriminate.
  - destruct (p a) eqn:Hpa.
    + split.
      * intros [= <-]. exists a. repeat split; auto. intros j b Hj. lia.
      * intros (b & Hb & Hpb & Hfirst). destruct i as [|i]; [reflexivity|].
        rewrite (Hfirst 0 a) in Hpa by (reflexivity || lia). discriminate.
    + rewrite fmap_Some. split.
      * intros (i' & Hi' & ->). apply IH in Hi' as (b & Hb & Hpb & Hfirst).
        exists b. repeat split; auto.
        intros [|j] c Hj Hc; simpl in Hc; [congruence|].
        apply (Hfirst j); [lia|exact Hc].
      * intros (b & Hb & Hpb & Hfirst). destruct i as [|i].
        { simpl in Hb. congruence. }
        exists i. split; [|reflexivity]. apply IH. exists b. repeat split; auto.
        intros j c Hj Hc. apply (Hfirst (S j)); [lia|exact Hc].
Qed.

Lemma findIndex_lt l i : findIndex p l = Some i → i < length l.
Proof.
  intros (a & Ha & _)%findIndex_Some. apply lookup_lt_Some in Ha. exact Ha.
Qed.

End FindIndex.

Section ComposerLaws.
Import Composer.
Context {N : Type} `{!Number N}.
Local Open Scope num_scope.
Implicit Type st : Composer N.

(** [saveState] writes the records of the array as they are at that
    moment, and nothing of the scene changes. *)
Lemma saveState_writes st :
  localStorage_setItem (saveState st)
  = localStorage_setItem st ++ [(SAVE_KEY, SavedImage.of_image <$> records st)].
Proof. unfold saveState. destruct (loadFinished st); reflexivity. Qed.

Lemma saveState_scene st :
  images (saveState st) = images st
  ∧ objects (saveState st) = objects st
  ∧ selectedImage (saveState st) = selectedImage st
  ∧ imageDragState (saveState st) = imageDragState st.
Proof. unfold saveState. destruct (loadFinished st); repeat split. Qed.

Lemma update_selected_writes f st :
  localStorage_setItem (update_selected f st) = localStorage_setItem st.
Proof. unfold update_selected. destruct (selectedImage st); reflexivity. Qed.

Lemma handleDelete_writes st :
  localStorage_setItem (handleDelete st) = localStorage_setItem st.
Proof.
  unfold handleDelete. destruct (selectedImage st) as [r|]; [|reflexivity].
  destruct (objects st !! r) as [rec|]; [|reflexivity].
  destruct (findIndex _ _); reflexivity.
Qed.
End ComposerLaws.

(** *** Bounding boxes *)

Section BoundingBoxClaims.
Import Composer.
Local Open Scope float_scope.

(** C4: with w = cropWidth / pixelsPerMetre and h = cropHeight /
    pixelsPerMetre, an image turned by 90 or 270 degrees has the box
    x + w/2 -+ h/2 by y + h/2 -+ w/2 (width and height swapped about the
    centre), and an image turned by 0 or 180 degrees the box x .. x + w by
    y .. y + h.  At (0,0), 4 by 2 metres, turned by 90 degrees, the box is
    1 .. 3 by -1 .. 3. *)
Theorem getImageBoundingBox_quarter_turns :
  (∀ image : RenderableImage.t float,
     let w := RenderableImage.cropWidth image / RenderableImage.pixelsPerMetre image in
     let h := RenderableImage.cropHeight image / RenderableImage.pixelsPerMetre image in
     let x := RenderableImage.x image in
     let y := RenderableImage.y image in
     (RenderableImage.rotationDegrees image = 90
      ∨ RenderableImage.rotationDegrees image = 270 →
      getImageBoundingBox image
      = {| BoundingBox.xMin := x + w / 2 - h / 2;
           BoundingBox.xMax := x + w / 2 + h / 2;
           BoundingBox.yMin := y + h / 2 - w / 2;
           BoundingBox.yMax := y + h / 2 + w / 2 |})
     ∧ (RenderableImage.rotationDegrees image = 0
        ∨ RenderableImage.rotationDegrees image = 180 →
        getImageBoundingBox image
        = {| BoundingBox.xMin := x;
             BoundingBox.xMax := x + w;
             BoundingBox.yMin := y;
             BoundingBox.yMax := y + h |}))
  ∧ getImageBoundingBox (Sample.placed 1 0 90)
    = {| BoundingBox.xMin := 1; BoundingBox.xMax := 3;
         BoundingBox.yMin := -1; BoundingBox.yMax := 3 |}.
Proof.
  split; [|vm_compute; reflexivity].
  intros image w h x y. unfold getImageBoundingBox.
  split; intros [Hturn|Hturn]; rewrite Hturn; reflexivity.
Qed.

Lemma getImageBoundingBox_quarter_turns_witness :
  getImageBoundingBox (Sample.placed 7 10 270)
  = {| BoundingBox.xMin := 11; BoundingBox.xMax := 13;
       BoundingBox.yMin := -1; BoundingBox.yMax := 3 |}.
Proof.
  rewrite (proj1 (proj1 getImageBoundingBox_quarter_turns (Sample.placed 7 10 270))
             (or_intror eq_refl)).
  vm_compute. reflexivity.
Defined.
End BoundingBoxClaims.

Section BoundingBoxExact.
Import Composer.
Local Open Scope R_scope.

(** In exact arithmetic the box of a quarter turn is as wide as the image
    is high, as high as the image is wide, and has the centre of the
    unturned image. *)
Lemma getImageBoundingBox_swaps_about_centre (image : RenderableImage.t R) :
  RenderableImage.rotationDegrees image = 90
  ∨ RenderableImage.rotationDegrees image = 270 →
  let w := RenderableImage.cropWidth image / RenderableImage.pixelsPerMetre image in
  let h := RenderableImage.cropHeight image / RenderableImage.pixelsPerMetre image in
  let box := getImageBoundingBox image in
  BoundingBox.xMax box - BoundingBox.xMin box = h
  ∧ BoundingBox.yMax box - BoundingBox.yMin box = w
  ∧ (BoundingBox.xMin box + BoundingBox.xMax box) / 2
    = RenderableImage.x image + w / 2
  ∧ (BoundingBox.yMin box + BoundingBox.yMax box) / 2
    = RenderableImage.y image + h / 2.
Proof.
  intros Hturn w h box. subst box. unfold getImageBoundingBox. simpl.
  fold w h. clearbody w h. unfold Q2R. simpl.
  destruct Hturn as [-> | ->];
    repeat (destruct (Req_dec_T _ _) as [Heq|_]; [exfalso; lra|]);
    simpl; repeat split; lra.
Qed.
End BoundingBoxExact.

(** *** Selection *)

Section SelectionClaims.
Import Composer.
Local Open Scope num_scope.

(** C6: a press of the primary button turns the pointer into world metres
    through the camera and scans [images] from its front: without an image
    whose bounding box contains the point the selection is cleared and the
    sequence stays as it is; otherwise the first such image is selected and
    moved to index 0, the others keeping their order.  In the scene of five
    images side by side, a press on the third gives the order third, first,
    second, fourth, fifth. *)
Theorem handleMouseDown_selects_first_hit :
  (∀ (N : Type) (HN : Number N) (st : Composer N) (e : MouseEvent.t N)
     (boundingRect : DOMRect.t N),
     canvas st = Some boundingRect → MouseEvent.button e = 0%Z →
     let mouseX :=
       (MouseEvent.clientX e - DOMRect.left boundingRect) / canvasPixelsPerMeter st
       + Point.x (renderOrigin st) in
     let mouseY :=
       (MouseEvent.clientY e - DOMRect.top boundingRect) / canvasPixelsPerMeter st
       + Point.y (renderOrigin st) in
     let hit := on_record (containsPoint mouseX mouseY) st in
     ((∀ r, r ∈ images st → hit r = false) →
      selectedImage (handleMouseDown e st) = None
      ∧ images (handleMouseDown e st) = images st)
     ∧ (∀ idx img,
          images st !! idx = Some img → hit img = true →
          (∀ j r, j < idx → images st !! j = Some r → hit r = false) →
          selectedImage (handleMouseDown e st) = Some img
          ∧ images (handleMouseDown e st) = img :: delete idx (images st)))
  ∧ images Sample.scene = [0; 1; 2; 3; 4]
  ∧ images (handleMouseDown (Sample.pointer 1050 50) Sample.scene)
    = [2; 0; 1; 3; 4]
  ∧ selectedImage (handleMouseDown (Sample.pointer 1050 50) Sample.scene)
    = Some 2
  ∧ selectedImage (handleMouseDown (Sample.pointer 1050 500) Sample.third_selected)
    = None.
Proof.
  split; [|vm_compute; repeat split].
  intros N HN st e boundingRect Hcanvas Hbutton mouseX mouseY hit.
  unfold handleMouseDown. rewrite Hcanvas.
  rewrite bool_decide_eq_true_2 by exact Hbutton.
  fold mouseX mouseY hit. split.
  - intros Hmiss. rewrite (proj2 (findIndex_None hit (images st)) Hmiss).
    split; reflexivity.
  - intros idx img Hidx Hhit Hfirst.
    assert (Hfound : findIndex hit (images st) = Some idx).
    { apply findIndex_Some. exists img. repeat split; assumption. }
    rewrite Hfound, Hidx. destruct idx as [|idx]; simpl.
    + split; [reflexivity|].
      destruct (images st) as [|r rest]; [discriminate|].
      simpl in *. congruence.
    + destruct (loadFinished _); split; reflexivity.
Qed.

Lemma handleMouseDown_selects_first_hit_witness :
  selectedImage (handleMouseDown (Sample.pointer 1550 50) Sample.scene) = Some 3
  ∧ images (handleMouseDown (Sample.pointer 1550 50) Sample.scene)
    = [3; 0; 1; 2; 4].
Proof.
  refine (proj2 (proj1 handleMouseDown_selects_first_hit float _
                   Sample.scene (Sample.pointer 1550 50) Sample.at_origin
                   eq_refl eq_refl)
            3 3 eq_refl _ _).
  - vm_compute. reflexivity.
  - intros j r Hj Hr.
    destruct j as [|[|[|j]]]; [| | |lia];
      vm_compute in Hr; injection Hr as <-; vm_compute; reflexivity.
Defined.
End SelectionClaims.

(** *** Writes to the store *)

Section PersistenceLaws.
Import Composer.
Context {N : Type} `{!Number N}.
Implicit Type st : Composer N.

Lemma records_saveState st : records (saveState st) = records st.
Proof.
  unfold records. destruct (saveState_scene st) as (-> & -> & _). reflexivity.
Qed.

(** Adding an image writes the sequence it leaves. *)
Lemma addImageCallback_saves (image : RenderableImage.t N) st :
  localStorage_setItem (addImageCallback image st)
  = localStorage_setItem st
    ++ [(SAVE_KEY, SavedImage.of_image <$> records (addImageCallback image st))].
Proof.
  unfold addImageCallback. cbv zeta. rewrite records_saveState, saveState_writes.
  reflexivity.
Qed.

(** So does every release of a mouse button over the canvas. *)
Lemma handleMouseUp_saves st :
  localStorage_setItem (handleMouseUp st)
  = localStorage_setItem st
    ++ [(SAVE_KEY, SavedImage.of_image <$> records (handleMouseUp st))].
Proof.
  change (localStorage_setItem (handleMouseUp st))
    with (localStorage_setItem (saveState st)).
  change (records (handleMouseUp st)) with (records (saveState st)).
  rewrite records_saveState. apply saveState_writes.
Qed.
End PersistenceLaws.

Section PersistenceClaims.
Import Composer.
Local Open Scope float_scope.

(** C2 does not hold of the code: rotating, deleting, changing the opacity
    of and relabelling the selected image call [saveState] nowhere, so the
    list of writes to the store is what it was.  In the scene with its
    third image selected each of them changes the sequence or a record of
    it and leaves the two earlier writes as the only ones. *)
Theorem toolbar_changes_are_not_saved :
  (∀ (N : Type) (HN : Number N) (st : Composer N) (valueAsNumber : N)
     (answer : option string),
     localStorage_setItem (handleRotateLeft st) = localStorage_setItem st
     ∧ localStorage_setItem (handleRotateRight st) = localStorage_setItem st
     ∧ localStorage_setItem (handleDelete st) = localStorage_setItem st
     ∧ localStorage_setItem (handleOpacityChange valueAsNumber st)
       = localStorage_setItem st
     ∧ localStorage_setItem (handleRename answer st) = localStorage_setItem st)
  ∧ RenderableImage.rotationDegrees <$> records Sample.third_selected
    = [0; 0; 0; 0; 0]
  ∧ RenderableImage.rotationDegrees
      <$> records (handleRotateRight Sample.third_selected)
    = [90; 0; 0; 0; 0]
  ∧ RenderableImage.rotationDegrees
      <$> records (handleRotateLeft Sample.third_selected)
    = [270; 0; 0; 0; 0]
  ∧ images Sample.third_selected = [2; 0; 1; 3; 4]%nat
  ∧ images (handleDelete Sample.third_selected) = [0; 1; 3; 4]%nat
  ∧ RenderableImage.opacity
      <$> records (handleOpacityChange 0.5 Sample.third_selected)
    = [0.5; 1; 1; 1; 1]
  ∧ RenderableImage.label
      <$> records (handleRename (Some "kitchen"%string) Sample.third_selected)
    = [Some "kitchen"%string; None; None; None; None]
  ∧ length (localStorage_setItem Sample.third_selected) = 2%nat
  ∧ length (localStorage_setItem (handleDelete Sample.third_selected)) = 2%nat.
Proof.
  split; [|vm_compute; repeat split].
  intros N HN st valueAsNumber answer.
  unfold handleRotateLeft, handleRotateRight, handleOpacityChange, handleRename.
  rewrite !update_selected_writes, handleDelete_writes. repeat split.
Qed.
End PersistenceClaims.

(** *** Deleting *)

Section DeleteClaims.
Import Composer.
Local Open Scope num_scope.



End DeleteClaims.

(** *** Zooming *)

Section ZoomLaws.
Import Composer.
Context {N : Type} `{!Number N}.
Variable Math_pow : N → N → N.
Local Open Scope num_scope.

(** What a wheel event does to the camera, whatever the arithmetic. *)
Lemma handleMouseWheel_camera (st : Composer N) (e : WheelEvent.t N)
    (p : Point.t N) :
  mousePos st = Some p →
  let m := Math_pow (lit 1.3) (WheelEvent.deltaY e * lit (-0.01)) in
  let pointerWorld := worldPoint st p in
  canvasPixelsPerMeter (handleMouseWheel Math_pow e st)
  = canvasPixelsPerMeter st * m
  ∧ renderOrigin (handleMouseWheel Math_pow e st)
    = {| Point.x := Point.x pointerWorld
                    - (Point.x pointerWorld - Point.x (renderOrigin st)) / m;
         Point.y := Point.y pointerWorld
                    - (Point.y pointerWorld - Point.y (renderOrigin st)) / m |}.
Proof.
  intros Hmouse m pointerWorld. unfold handleMouseWheel.
  rewrite Hmouse. split; reflexivity.
Qed.
End ZoomLaws.

Section ZoomClaims.
Import Composer.

(** C5, as the code has it: a wheel event handled while the pointer
    position is known multiplies pixelsPerMetre by
    m = Math.pow(1.3, deltaY * -0.01) and moves the origin to
    pointerWorld - (pointerWorld - origin) / m, in whatever arithmetic the
    handler runs.  In exact arithmetic, where m = 1.3^(-deltaY/100), and
    with pixelsPerMetre not zero, the world point under the pointer is the
    same before and after. *)
Theorem handleMouseWheel_anchors_pointer :
  (∀ (N : Type) (HN : Number N) (Math_pow : N → N → N) (st : Composer N)
     (e : WheelEvent.t N) (p : Point.t N),
     mousePos st = Some p →
     let m := Math_pow (lit 1.3) (WheelEvent.deltaY e * lit (-0.01))%num in
     let pointerWorld := worldPoint st p in
     canvasPixelsPerMeter (handleMouseWheel Math_pow e st)
     = (canvasPixelsPerMeter st * m)%num
     ∧ renderOrigin (handleMouseWheel Math_pow e st)
       = {| Point.x := (Point.x pointerWorld
                        - (Point.x pointerWorld - Point.x (renderOrigin st)) / m)%num;
            Point.y := (Point.y pointerWorld
                        - (Point.y pointerWorld - Point.y (renderOrigin st)) / m)%num |})
  ∧ (∀ (st : Composer R) (e : WheelEvent.t R) (p : Point.t R),
       mousePos st = Some p → canvasPixelsPerMeter st ≠ 0%R →
       canvasPixelsPerMeter (handleMouseWheel Rpower e st)
       = (canvasPixelsPerMeter st * Rpower 1.3 (- WheelEvent.deltaY e / 100))%R
       ∧ worldPoint (handleMouseWheel Rpower e st) p = worldPoint st p).
Proof.
  split.
  - intros N HN Math_pow st e p Hmouse. apply handleMouseWheel_camera, Hmouse.
  - intros st e p Hmouse Hzoom.
    destruct (handleMouseWheel_camera Rpower st e p Hmouse) as [Hscale Horigin].
    assert (Hm : @lit R _ 1.3 = 1.3%R ∧
                 (WheelEvent.deltaY e * lit (-0.01))%num
                 = (- WheelEvent.deltaY e / 100)%R).
    { simpl. unfold Q2R. simpl. split; lra. }
    destruct Hm as [Hbase Hexponent].
    rewrite Hbase, Hexponent in Hscale, Horigin.
    set (m := Rpower 1.3 (- WheelEvent.deltaY e / 100)) in *.
    assert (Hpositive : (0 < m)%R) by apply exp_pos.
    split; [exact Hscale|].
    unfold worldPoint at 1. rewrite Hscale, Horigin. unfold worldPoint. simpl.
    f_equal; field; split; lra.
Qed.

Lemma handleMouseWheel_anchors_pointer_witness :
  worldPoint (handleMouseWheel Rpower Sample.one_notch_up Sample.hovering)
             {| Point.x := 100%R; Point.y := 40%R |}
  = worldPoint Sample.hovering {| Point.x := 100%R; Point.y := 40%R |}.
Proof.
  refine (proj2 (proj2 handleMouseWheel_anchors_pointer Sample.hovering
                   Sample.one_notch_up {| Point.x := 100%R; Point.y := 40%R |}
                   eq_refl _)).
  simpl. unfold Q2R. simpl. lra.
Defined.

(** C5 as stated fails in the arithmetic of the program.  Pan the empty
    scene by one pixel, so that the origin is at 0.02, rest the pointer on
    the canvas point (2, 0), and turn the wheel sideways (deltaY = 0, for
    which [Math.pow] must answer 1): the world point under the pointer is
    0.06 before and 0.060000000000000005 after.  Or rest the pointer on
    the canvas point (1, 0) of the fresh scene and zoom in by one notch
    (deltaY = -100, the exponent is 1, and [Math.pow] answers 1.3 wherever
    x to the power 1 is x): the world point is 0.02 before and
    0.020000000000000004 after. *)
Lemma zoom_moves_pointer_in_binary64 :
  mousePos Sample.panned = Some {| Point.x := 2%float; Point.y := 0%float |}
  ∧ worldPoint Sample.panned {| Point.x := 2%float; Point.y := 0%float |}
    = {| Point.x := 0.06%float; Point.y := 0%float |}
  ∧ (∀ Math_pow : float → float → float,
       Math_pow 1.3%float (-0)%float = 1%float →
       worldPoint (handleMouseWheel Math_pow Sample.no_vertical_scroll Sample.panned)
                  {| Point.x := 2%float; Point.y := 0%float |}
       = {| Point.x := 0.060000000000000005%float; Point.y := 0%float |})
  ∧ (0.06 =? 0.060000000000000005)%float = false
  ∧ mousePos Sample.pointer_at_one
    = Some {| Point.x := 1%float; Point.y := 0%float |}
  ∧ worldPoint Sample.pointer_at_one {| Point.x := 1%float; Point.y := 0%float |}
    = {| Point.x := 0.02%float; Point.y := 0%float |}
  ∧ (∀ Math_pow : float → float → float,
       Math_pow 1.3%float 1%float = 1.3%float →
       worldPoint (handleMouseWheel Math_pow Sample.zoom_in Sample.pointer_at_one)
                  {| Point.x := 1%float; Point.y := 0%float |}
       = {| Point.x := 0.020000000000000004%float; Point.y := 0%float |})
  ∧ (0.02 =? 0.020000000000000004)%float = false.
Proof.
  split_and!; try (vm_compute; reflexivity).
  - intros Math_pow Hpow. unfold handleMouseWheel.
    change (WheelEvent.deltaY Sample.no_vertical_scroll * lit (-0.01))%num
      with (-0)%float.
    change (@lit float _ 1.3) with 1.3%float.
    rewrite Hpow. vm_compute. reflexivity.
  - intros Math_pow Hpow. unfold handleMouseWheel.
    change (WheelEvent.deltaY Sample.zoom_in * lit (-0.01))%num with 1%float.
    change (@lit float _ 1.3) with 1.3%float.
    rewrite Hpow. vm_compute. reflexivity.
Qed.
End ZoomClaims.

(** * Further properties *)

(** Case analysis on a scrutinee that holds no case analysis itself. *)
Ltac innermost_case :=
  match goal with
  | |- context [match ?x with _ => _ end] =>
      lazymatch x with
      | context [match _ with _ => _ end] => fail
      | _ => destruct x
      end
  end.



(** ** More on the calibration dialog *)

(** *** Crop handles *)

Section HandleExtras.
Import ImageEditor.
Local Open Scope num_scope.



(** X2: a drag writes the bounds of the handles it holds and no other:
    a bound whose handle is not held keeps its value, and the held handles
    stay the held handles. *)
Theorem dragCropHandles_moves_held_bounds_only (N : Type) (HN : Number N)
    (m : Coordinate.t N) (scaleFactor : N) (c : CropState N) (h : CropHandle.t) :
  includes (currentCropHandles c) h = false →
  bound h (dragCropHandles m scaleFactor c) = bound h c
  ∧ currentCropHandles (dragCropHandles m scaleFactor c) = currentCropHandles c.
Proof.
  intros Hfree. unfold dragCropHandles.
  destruct h; simpl in *;
    repeat match goal with
           | |- context [includes (currentCropHandles c) ?k] =>
               first [rewrite Hfree
                     |destruct (includes (currentCropHandles c) k)]; simpl
           end;
    split; reflexivity.
Qed.

Lemma dragCropHandles_moves_held_bounds_only_witness :
  bound CropHandle.xMin
    (dragCropHandles (Coordinate.mk Coordinate.canvas 300%float 400%float) 1%float
       {| xMin := 20%float; xMax := 1180%float; yMin := 20%float;
          yMax := 680%float;
          currentCropHandles := [CropHandle.xMax; CropHandle.yMax] |})
  = 20%float.
Proof.
  apply (dragCropHandles_moves_held_bounds_only float _
           (Coordinate.mk Coordinate.canvas 300%float 400%float) 1%float
           {| xMin := 20%float; xMax := 1180%float; yMin := 20%float;
              yMax := 680%float;
              currentCropHandles := [CropHandle.xMax; CropHandle.yMax] |}
           CropHandle.xMin).
  vm_compute. reflexivity.
Defined.

(** X3: while no handle is held, no event moves the crop rectangle: after
    any event the stage is still crop with the same four bounds, or the
    event was Next and the record took the rectangle as its crop. *)
Theorem crop_rectangle_moves_only_in_a_drag (N : Type) (HN : Number N)
    (ev : EditorEvent.t N) (ed : Editor N) (c : CropState N) :
  state ed = crop c → currentCropHandles c = [] →
  match state (EditorEvent.step ev ed) with
  | crop c' =>
      xMin c' = xMin c ∧ xMax c' = xMax c ∧ yMin c' = yMin c ∧ yMax c' = yMax c
  | scale s' =>
      ev = EditorEvent.next
      ∧ s' = mkScaleState None None None
      ∧ renderableImage (EditorEvent.step ev ed)
        = RenderableImage.set_crop (xMin c) (yMin c) (xMax c - xMin c)
                                   (yMax c - yMin c) (renderableImage ed)
  end.
Proof.
  intros Hstate Hfree.
  destruct ed as [cv cursor img st ml shift errors saved].
  destruct c as [x0 x1 y0 y1 held]. simpl in *. subst st held.
  destruct ev as [e| | | |e|code|code|v| | ];
    unfold EditorEvent.step, EditorEvent.dispatch, watchEffect, handleMouseMove,
      handleMouseLeave, handleMouseDown, handleMouseUp, handleMouseClick,
      handleKeyDown, handleKeyUp, handleNext, saveDisabled,
      findUsableCropHandles; simpl;
    repeat (innermost_case; simpl);
    repeat split.
Qed.

Lemma crop_rectangle_moves_only_in_a_drag_witness :
  match state (EditorEvent.step (EditorEvent.mousemove (Sample.pointer 600 690))
                 Sample.editor) with
  | crop c' => yMin c' = 20%float ∧ yMax c' = 680%float
  | scale _ => False
  end.
Proof.
  pose proof (crop_rectangle_moves_only_in_a_drag float _
                (EditorEvent.mousemove (Sample.pointer 600 690)) Sample.editor _
                eq_refl eq_refl) as Hsame.
  destruct (state _) as [c'|s']; [|destruct Hsame as [Hnext _]; discriminate].
  destruct Hsame as (_ & _ & HyMin & HyMax). split; assumption.
Defined.
End HandleExtras.
(** *** Runs of the dialog *)

Section DialogRuns.
Import ImageEditor.
Context {N : Type} `{!Number N}.
Local Open Scope num_scope.
Implicit Type ed : Editor N.

(** A click of the scale stage on a line whose start is an image point
    prints nothing and stores an image point. *)
Lemma snapLine_image_point (start : option (Coordinate.t N)) cursor ed :
  (∀ p, start = Some p → Coordinate.system p = Coordinate.image) →
  Coordinate.system cursor = Coordinate.image →
  snd (snapLine start cursor ed) = ed
  ∧ Coordinate.system (fst (snapLine start cursor ed)) = Coordinate.image.
Proof.
  intros Hstart Hcursor. split; [|rewrite snapLine_system; exact Hcursor].
  unfold snapLine. destruct start as [p|]; [|reflexivity].
  destruct (shiftPressed ed); [reflexivity|].
  rewrite bool_decide_eq_true_2 by (rewrite Hcursor; apply Hstart; reflexivity).
  simpl. case (num_lt _ _); reflexivity.
Qed.

Lemma step_keeps_dialog_invariant (img : HTMLImageElement.t N) (newId : N)
    (ev : EditorEvent.t N) ed :
  dialog_invariant img newId ed → dialog_invariant img newId (EditorEvent.step ev ed).
Proof.
  unfold dialog_invariant. intros [Hsilent Hstage].
  destruct ed as [cv cursor rec st ml shift errors saved]. simpl in *. subst errors.
  destruct st as [c|s].
  - destruct Hstage as [-> ->].
    destruct ev as [e| | | |e|code|code|v| | ];
      unfold EditorEvent.step, EditorEvent.dispatch, watchEffect, handleMouseMove,
        handleMouseLeave, handleMouseDown, handleMouseUp, handleMouseClick,
        handleKeyDown, handleKeyUp, handleNext, saveDisabled,
        findUsableCropHandles; simpl;
      repeat (innermost_case; simpl);
      try (split; [reflexivity|split; reflexivity]).
    all: split; [reflexivity|]; split_and!; try discriminate.
    all: eexists _, _, _, _; split; [eexists; reflexivity|].
    all: intros r Hr; inversion Hr.
  - destruct Hstage as (Hstart & Hend & Hline & Hlength & ox & oy & w & h & [ppm ->] & Hsaved).
    assert (Hkeep : ∀ cv' cursor' ml' shift',
              dialog_invariant img newId
                (watchEffect
                   (mkEditor cv' cursor' (calibrated img newId ox oy w h ppm)
                             (scale s) ml' shift' [] saved))).
    { intros. split; [reflexivity|]. simpl. split_and!; try assumption.
      exists ox, oy, w, h. split; [exists ppm; reflexivity|assumption]. }
    destruct ev as [e| | | |e|code|code|v| | ];
      unfold EditorEvent.step, EditorEvent.dispatch.
    + unfold handleMouseMove. simpl. destruct cv; apply Hkeep.
    + apply Hkeep.
    + apply Hkeep.
    + apply Hkeep.
    + destruct (bool_decide _); [|apply Hkeep].
      unfold handleMouseClick. simpl. destruct cv as [rect|]; [|apply Hkeep].
      match goal with
      | |- context [snapLine (start s) ?p ?ed] =>
          destruct (snapLine_image_point (start s) p ed Hstart eq_refl)
            as [Hsame Himage];
          destruct (snapLine (start s) p ed) as [q ed'] eqn:Hsnap
      end.
      simpl in Hsame, Himage. subst ed'.
      destruct (negb (defined (start s)) || defined (end_ s)) eqn:Hnew.
      * split; [reflexivity|]. simpl. split_and!; try discriminate.
        -- intros p [= <-]. exact Himage.
        -- reflexivity.
        -- exists ox, oy, w, h. split; [exists ppm; reflexivity|assumption].
      * apply orb_false_elim in Hnew as [Hhas _].
        apply negb_false_iff in Hhas.
        split; [reflexivity|]. simpl. split_and!; try assumption.
        -- intros p [= <-]. exact Himage.
        -- intros _. exact Hhas.
        -- exists ox, oy, w, h. split; [exists ppm; reflexivity|assumption].
    + unfold handleKeyDown. destruct (is_shift code); apply Hkeep.
    + unfold handleKeyUp. destruct (is_shift code); apply Hkeep.
    + simpl. destruct (defined (end_ s)) eqn:Hhas; [|apply Hkeep].
      split; [reflexivity|]. simpl. split_and!; try assumption.
      * intros _. apply Hline. reflexivity.
      * exists ox, oy, w, h. split; [exists ppm; reflexivity|assumption].
    + apply Hkeep.
    + destruct (saveDisabled _) eqn:Hdisabled; [apply Hkeep|].
      apply saveDisabled_false in Hdisabled
        as (s' & a & b & len & [= <-] & Ha & Hb & Hlen).
      unfold handleSave. simpl. rewrite Ha, Hb, Hlen.
      split; [reflexivity|]. simpl. split_and!; try assumption.
      exists ox, oy, w, h. split; [eexists; reflexivity|].
      intros r [Hr|Hr]%elem_of_app; [apply Hsaved, Hr|].
      apply list_elem_of_singleton in Hr as ->. eexists. reflexivity.
Qed.

Lemma run_keeps_dialog_invariant (img : HTMLImageElement.t N) (newId : N)
    (evs : list (EditorEvent.t N)) ed :
  dialog_invariant img newId ed → dialog_invariant img newId (EditorEvent.run evs ed).
Proof.
  revert ed. induction evs as [|ev evs IH]; intros ed Hed; [exact Hed|].
  apply IH, step_keeps_dialog_invariant, Hed.
Qed.

Lemma setup_dialog_invariant (img : HTMLImageElement.t N) (newId : N)
    (rect : option (DOMRect.t N)) :
  dialog_invariant img newId (setup img newId rect).
Proof. split; [reflexivity|]. split; reflexivity. Qed.
End DialogRuns.

Section DialogRunExtras.
Import ImageEditor.

(** X4: whatever the events, the dialog prints nothing on the console: the
    points it stores are image points, so the mismatch branch of [snapLine]
    is never taken from [handleMouseClick]. *)
Theorem dialog_prints_nothing (N : Type) (HN : Number N)
    (img : HTMLImageElement.t N) (newId : N) (rect : option (DOMRect.t N))
    (evs : list (EditorEvent.t N)) :
  console_error (EditorEvent.run evs (setup img newId rect)) = [].
Proof.
  apply (run_keeps_dialog_invariant img newId evs), setup_dialog_invariant.
Qed.

(** X5: as long as the dialog is in its crop stage it has handed out no
    record, and its record is the one it was set up with. *)
Theorem dialog_hands_out_nothing_before_next (N : Type) (HN : Number N)
    (img : HTMLImageElement.t N) (newId : N) (rect : option (DOMRect.t N))
    (evs : list (EditorEvent.t N)) (c : CropState N) :
  state (EditorEvent.run evs (setup img newId rect)) = crop c →
  onSave (EditorEvent.run evs (setup img newId rect)) = []
  ∧ renderableImage (EditorEvent.run evs (setup img newId rect))
    = renderableImage (setup img newId rect).
Proof.
  intros Hstage.
  destruct (run_keeps_dialog_invariant img newId evs _
              (setup_dialog_invariant img newId rect)) as [_ Hinv].
  rewrite Hstage in Hinv. exact Hinv.
Qed.

Lemma dialog_hands_out_nothing_before_next_witness :
  onSave (EditorEvent.run
            [EditorEvent.mousemove (Sample.pointer 600 20); EditorEvent.mousedown;
             EditorEvent.mousemove (Sample.pointer 600 300); EditorEvent.save;
             EditorEvent.input 3%float; EditorEvent.mouseup]
            (setup Sample.plan 1%float (Some Sample.at_origin))) = [].
Proof.
  refine (proj1 (dialog_hands_out_nothing_before_next float _ Sample.plan 1%float
                   (Some Sample.at_origin) _ _ _)).
  vm_compute. reflexivity.
Defined.

(** X6: the record of the dialog and all the records it has handed out
    differ in pixelsPerMetre only: they carry the image and the id of the
    set-up, position (0,0), rotation 0, opacity 1, no label, and one and
    the same crop. *)
Theorem dialog_records_differ_in_scale_only (N : Type) (HN : Number N)
    (img : HTMLImageElement.t N) (newId : N) (rect : option (DOMRect.t N))
    (evs : list (EditorEvent.t N)) :
  ∃ ox oy w h,
    ∀ r, r = renderableImage (EditorEvent.run evs (setup img newId rect))
         ∨ r ∈ onSave (EditorEvent.run evs (setup img newId rect)) →
         ∃ ppm, r = calibrated img newId ox oy w h ppm.
Proof.
  destruct (run_keeps_dialog_invariant img newId evs _
              (setup_dialog_invariant img newId rect)) as [_ Hinv].
  destruct (state _) as [c|s].
  - destruct Hinv as [Hnone Hrecord]. eexists _, _, _, _.
    intros r [->|Hr]; [eexists; exact Hrecord|].
    rewrite Hnone in Hr. inversion Hr.
  - destruct Hinv as (_ & _ & _ & _ & ox & oy & w & h & Hrecord & Hsaved).
    exists ox, oy, w, h. intros r [->|Hr]; [exact Hrecord|apply Hsaved, Hr].
Qed.

(** X7: Save is enabled exactly when the scale stage has an end point and
    a length; a start point is then there as well. *)
Theorem save_enabled_iff_end_and_length (N : Type) (HN : Number N)
    (img : HTMLImageElement.t N) (newId : N) (rect : option (DOMRect.t N))
    (evs : list (EditorEvent.t N)) :
  saveDisabled (EditorEvent.run evs (setup img newId rect)) = false
  ↔ ∃ s b len, state (EditorEvent.run evs (setup img newId rect)) = scale s
               ∧ end_ s = Some b ∧ length_ s = Some len.
Proof.
  destruct (run_keeps_dialog_invariant img newId evs _
              (setup_dialog_invariant img newId rect)) as [_ Hinv].
  rewrite saveDisabled_false. split.
  - intros (s & a & b & len & Hs & _ & Hb & Hlen). exists s, b, len. auto.
  - intros (s & b & len & Hs & Hb & Hlen). rewrite Hs in Hinv.
    destruct Hinv as (_ & _ & Hline & _).
    rewrite Hb in Hline. specialize (Hline eq_refl).
    destruct (start s) as [a|] eqn:Ha; [|discriminate].
    exists s, a, b, len. auto.
Qed.
End DialogRunExtras.
Section ScaleIsFinal.
Import ImageEditor.
Context {N : Type} `{!Number N}.
Implicit Type ed : Editor N.

Lemma step_stays_in_scale_stage (ev : EditorEvent.t N) ed (s : ScaleState N) :
  state ed = scale s →
  ∃ s', state (EditorEvent.step ev ed) = scale s'
        ∧ RenderableImage.set_pixelsPerMetre
            (RenderableImage.pixelsPerMetre (renderableImage ed))
            (renderableImage (EditorEvent.step ev ed))
          = renderableImage ed.
Proof.
  intros Hstate.
  destruct ed as [cv cursor rec st ml shift errors saved]. simpl in *. subst st.
  destruct rec, s as [a b len].
  destruct ev as [e| | | |e|code|code|v| | ];
    unfold EditorEvent.step, EditorEvent.dispatch, watchEffect, handleMouseMove,
      handleMouseLeave, handleMouseDown, handleMouseUp, handleMouseClick,
      handleKeyDown, handleKeyUp, handleNext, handleLengthInputChange,
      handleSave, saveDisabled, snapLine; simpl;
    repeat (innermost_case; simpl);
    eexists; split; reflexivity.
Qed.
End ScaleIsFinal.

Section ScaleIsFinalExtra.
Import ImageEditor.

(** X8: there is no way back from the scale stage, and the crop taken at
    Next is frozen: after any events the stage is scale and the record
    differs from the earlier one in pixelsPerMetre at most. *)
Theorem scale_stage_is_final (N : Type) (HN : Number N)
    (evs : list (EditorEvent.t N)) (ed : Editor N) (s : ScaleState N) :
  state ed = scale s →
  ∃ s', state (EditorEvent.run evs ed) = scale s'
        ∧ RenderableImage.set_pixelsPerMetre
            (RenderableImage.pixelsPerMetre (renderableImage ed))
            (renderableImage (EditorEvent.run evs ed))
          = renderableImage ed.
Proof.
  revert ed s. induction evs as [|ev evs IH]; intros ed s Hstate.
  - exists s. split; [exact Hstate|]. simpl. destruct (renderableImage ed).
    reflexivity.
  - destruct (step_stays_in_scale_stage ev ed s Hstate) as (s1 & Hs1 & Hrec1).
    destruct (IH _ _ Hs1) as (s2 & Hs2 & Hrec2).
    exists s2. split; [exact Hs2|]. simpl.
    rewrite <- Hrec1 at 2. rewrite <- Hrec2.
    destruct (renderableImage (EditorEvent.run evs (EditorEvent.step ev ed))).
    reflexivity.
Qed.

Lemma scale_stage_is_final_witness :
  ∃ s', state (EditorEvent.run
                 [EditorEvent.next; EditorEvent.mousedown; EditorEvent.save;
                  EditorEvent.click (Sample.pointer 40 40)]
                 (Sample.measuring 0 0 300 0 3)) = scale s'
        ∧ RenderableImage.set_pixelsPerMetre
            (RenderableImage.pixelsPerMetre
               (renderableImage (Sample.measuring 0 0 300 0 3)))
            (renderableImage
               (EditorEvent.run
                  [EditorEvent.next; EditorEvent.mousedown; EditorEvent.save;
                   EditorEvent.click (Sample.pointer 40 40)]
                  (Sample.measuring 0 0 300 0 3)))
          = renderableImage (Sample.measuring 0 0 300 0 3).
Proof.
  apply (scale_stage_is_final float _ _ (Sample.measuring 0 0 300 0 3) _ eq_refl).
Defined.
End ScaleIsFinalExtra.
(** *** Clicks of the scale stage *)

Section ClickExtras.
Import ImageEditor.
Local Open Scope num_scope.

(** X9: with shift not held, a click on a line that has a start point
    stores the clicked image point moved onto the horizontal or the
    vertical through that start point: as the end point when there is
    none, and as the new start point (the end cleared) when there is one.
    So the start of a new line is snapped against the start of the old
    one. *)
Theorem click_snaps_to_previous_start (N : Type) (HN : Number N)
    (e : MouseEvent.t N) (ed : Editor N) (rect : DOMRect.t N)
    (s : ScaleState N) (a : Coordinate.t N) :
  canvas ed = Some rect → state ed = scale s → start s = Some a →
  Coordinate.system a = Coordinate.image → shiftPressed ed = false →
  let p := clickedPoint e rect ed in
  let q :=
    if Math_abs (Coordinate.x p - Coordinate.x a)
       >? Math_abs (Coordinate.y p - Coordinate.y a)
    then Coordinate.mk Coordinate.image (Coordinate.x p) (Coordinate.y a)
    else Coordinate.mk Coordinate.image (Coordinate.x a) (Coordinate.y p) in
  state (handleMouseClick e ed)
  = scale (if defined (end_ s)
           then mkScaleState (Some q) None (length_ s)
           else mkScaleState (Some a) (Some q) (length_ s)).
Proof.
  intros Hcanvas Hstate Hstart Hsystem Hshift p q.
  unfold handleMouseClick. rewrite Hcanvas, Hstate, Hstart. fold p.
  rewrite (snapLine_same_system a p ed Hshift Hsystem). simpl.
  fold q. destruct (defined (end_ s)); reflexivity.
Qed.

Lemma click_snaps_to_previous_start_witness :
  state (handleMouseClick (Sample.pointer 100 300) Sample2.line_drawn)
  = scale {| start := Some (Coordinate.mk Coordinate.image 10%float 300%float);
             end_ := None; length_ := None |}.
Proof.
  rewrite (click_snaps_to_previous_start float _ (Sample.pointer 100 300)
             Sample2.line_drawn Sample.at_origin _
             (Coordinate.mk Coordinate.image 10%float 10%float)
             eq_refl eq_refl eq_refl eq_refl eq_refl).
  vm_compute. reflexivity.
Defined.

(** X10: a click never touches the length.  Clicking on a finished line
    that has a length disables Save, and the next click enables it again
    with the length that was typed for the old line. *)
Theorem redrawn_line_keeps_length (N : Type) (HN : Number N)
    (e1 e2 : MouseEvent.t N) (ed : Editor N) (rect : DOMRect.t N)
    (s : ScaleState N) (a b : Coordinate.t N) (len : N) :
  canvas ed = Some rect → state ed = scale s →
  start s = Some a → end_ s = Some b → length_ s = Some len →
  saveDisabled ed = false
  ∧ saveDisabled (handleMouseClick e1 ed) = true
  ∧ saveDisabled (handleMouseClick e2 (handleMouseClick e1 ed)) = false
  ∧ ∃ a' b', state (handleMouseClick e2 (handleMouseClick e1 ed))
             = scale (mkScaleState (Some a') (Some b') (Some len)).
Proof.
  intros Hcanvas Hstate Hstart Hend Hlength.
  destruct ed as [cv cursor rec st ml shift errors saved]. simpl in *.
  subst cv st. destruct s as [sa sb slen]. simpl in *. subst sa sb slen.
  unfold handleMouseClick, saveDisabled, snapLine; simpl.
  repeat (innermost_case; simpl);
    (split_and!; [reflexivity..|eexists _, _; reflexivity]).
Qed.

Lemma redrawn_line_keeps_length_witness :
  saveDisabled
    (handleMouseClick (Sample.pointer 400 90)
       (handleMouseClick (Sample.pointer 100 90) (Sample.measuring 0 0 300 0 3)))
  = false
  ∧ ∃ a' b',
      state (handleMouseClick (Sample.pointer 400 90)
               (handleMouseClick (Sample.pointer 100 90)
                  (Sample.measuring 0 0 300 0 3)))
      = scale (mkScaleState (Some a') (Some b') (Some 3%float)).
Proof.
  destruct (redrawn_line_keeps_length float _ (Sample.pointer 100 90)
              (Sample.pointer 400 90) (Sample.measuring 0 0 300 0 3)
              Sample.at_origin _ _ _ _ eq_refl eq_refl eq_refl eq_refl eq_refl)
    as (_ & _ & Henabled & Hlength).
  split; assumption.
Defined.
End ClickExtras.
(** *** The scale of the canvas *)

Section ScaleFactorExtras.
Import ImageEditor.
Local Open Scope R_scope.


End ScaleFactorExtras.
(** *** The crop rectangle in binary64 *)

Section Binary64Order.
Local Open Scope float_scope.

Lemma SFcompare_antisym (x y : spec_float) :
  SFcompare y x = CompOpp <$> SFcompare x y.
Proof.
  assert (Hpos : ∀ p q, Pos.compare_cont Eq q p = CompOpp (Pos.compare_cont Eq p q)).
  { intros p q. rewrite (Pos.compare_cont_antisym p q Eq). reflexivity. }
  destruct x as [[]|[]| |[] mx ex], y as [[]|[]| |[] my ey];
    try reflexivity; simpl;
    rewrite (Z.compare_antisym ey ex), (Hpos mx my);
    destruct (ey ?= ex)%Z; simpl; try reflexivity;
    destruct (Pos.compare_cont Eq mx my); reflexivity.
Qed.

Lemma SFcompare_refl (x : spec_float) :
  x ≠ S754_nan → SFcompare x x = Some Eq.
Proof.
  destruct x as [[]|[]| |[] mx ex]; try reflexivity; try congruence;
    intros _; simpl; rewrite Z.compare_refl, Pos.compare_cont_refl; reflexivity.
Qed.

Lemma is_nan_false_inv (a : float) : is_nan a = false → Prim2SF a ≠ S754_nan.
Proof.
  unfold is_nan. rewrite FloatAxioms.eqb_spec. intros Hnan Ha.
  rewrite Ha in Hnan. discriminate.
Qed.

Lemma leb_not_nan (a b : float) :
  (a <=? b) = true → is_nan a = false ∧ is_nan b = false.
Proof.
  unfold is_nan. rewrite FloatAxioms.leb_spec, !FloatAxioms.eqb_spec.
  unfold SFleb, SFeqb. intros Hle.
  rewrite !SFcompare_refl; [split; reflexivity| |];
    intros Hnan; rewrite Hnan in Hle; simpl in Hle;
    [destruct (Prim2SF a) as [| | |]|]; discriminate.
Qed.

Lemma ltb_leb (a b : float) : (a <? b) = true → (a <=? b) = true.
Proof.
  rewrite FloatAxioms.ltb_spec, FloatAxioms.leb_spec. unfold SFltb, SFleb.
  destruct (SFcompare _ _) as [[]|]; congruence.
Qed.

Lemma leb_refl (a : float) : is_nan a = false → (a <=? a) = true.
Proof.
  intros Ha%is_nan_false_inv. rewrite FloatAxioms.leb_spec. unfold SFleb.
  rewrite SFcompare_refl by exact Ha. reflexivity.
Qed.

Lemma leb_total (a b : float) :
  is_nan a = false → is_nan b = false →
  (a <? b) = false → (b <? a) = false → (a <=? b) = true.
Proof.
  intros Ha%is_nan_false_inv Hb%is_nan_false_inv.
  rewrite !FloatAxioms.ltb_spec, FloatAxioms.leb_spec. unfold SFltb, SFleb.
  rewrite (SFcompare_antisym (Prim2SF a) (Prim2SF b)).
  destruct (SFcompare (Prim2SF a) (Prim2SF b)) as [[]|] eqn:Hcmp;
    simpl; try congruence.
  destruct (Prim2SF a) as [| | |], (Prim2SF b) as [| | |]; simpl in Hcmp;
    congruence.
Qed.

(** [Math.min] is at most, and [Math.max] at least, its second argument. *)
Lemma min_le_r (a b : float) :
  is_nan a = false → is_nan b = false → (Binary64.min a b <=? b) = true.
Proof.
  intros Ha Hb. unfold Binary64.min. rewrite Ha, Hb. simpl.
  destruct (a <? b) eqn:Hab; [apply ltb_leb, Hab|].
  destruct (b <? a) eqn:Hba; [apply leb_refl, Hb|].
  destruct (Binary64.is_neg_zero a);
    [apply leb_total; assumption|apply leb_refl, Hb].
Qed.

Lemma max_ge_r (a b : float) :
  is_nan a = false → is_nan b = false → (b <=? Binary64.max a b) = true.
Proof.
  intros Ha Hb. unfold Binary64.max. rewrite Ha, Hb. simpl.
  destruct (a <? b) eqn:Hab; [apply leb_refl, Hb|].
  destruct (b <? a) eqn:Hba; [apply ltb_leb, Hba|].
  destruct (Binary64.is_neg_zero a);
    [apply leb_refl, Hb|apply leb_total; assumption].
Qed.
End Binary64Order.

Section CropOrderExtras.
Import ImageEditor.
Local Open Scope float_scope.

(** X12: in the arithmetic of the program, a drag that holds neither
    [xMax] nor [yMin] keeps the rectangle in order, as long as the pointer
    position over the scale factor is a number: the clamps of [xMin] and
    [yMax] compare with the other bound of their own axis. *)
Theorem drag_of_xMin_and_yMax_keeps_order (m : Coordinate.t float)
    (scaleFactor : float) (c : CropState float) :
  includes (currentCropHandles c) CropHandle.xMax = false →
  includes (currentCropHandles c) CropHandle.yMin = false →
  (xMin c <=? xMax c) = true → (yMin c <=? yMax c) = true →
  is_nan (Coordinate.x m / scaleFactor) = false →
  is_nan (Coordinate.y m / scaleFactor) = false →
  (xMin (dragCropHandles m scaleFactor c) <=? xMax (dragCropHandles m scaleFactor c))
  = true
  ∧ (yMin (dragCropHandles m scaleFactor c) <=? yMax (dragCropHandles m scaleFactor c))
    = true.
Proof.
  intros HxMax HyMin Hx Hy Hmx Hmy.
  destruct (leb_not_nan _ _ Hx) as [_ Hx1], (leb_not_nan _ _ Hy) as [Hy0 _].
  unfold dragCropHandles.
  destruct (includes (currentCropHandles c) CropHandle.xMin); simpl;
    rewrite HxMax; simpl; rewrite HyMin; simpl;
    destruct (includes (currentCropHandles c) CropHandle.yMax); simpl;
    split; try assumption;
    first [apply min_le_r; assumption|apply max_ge_r; assumption].
Qed.

Lemma drag_of_xMin_and_yMax_keeps_order_witness :
  (xMin (dragCropHandles (Coordinate.mk Coordinate.canvas 1500 (-30)) 1
           {| xMin := 20; xMax := 1180; yMin := 20; yMax := 680;
              currentCropHandles := [CropHandle.xMin; CropHandle.yMax] |})
   <=? xMax (dragCropHandles (Coordinate.mk Coordinate.canvas 1500 (-30)) 1
               {| xMin := 20; xMax := 1180; yMin := 20; yMax := 680;
                  currentCropHandles := [CropHandle.xMin; CropHandle.yMax] |}))
  = true
  ∧ (yMin (dragCropHandles (Coordinate.mk Coordinate.canvas 1500 (-30)) 1
             {| xMin := 20; xMax := 1180; yMin := 20; yMax := 680;
                currentCropHandles := [CropHandle.xMin; CropHandle.yMax] |})
     <=? yMax (dragCropHandles (Coordinate.mk Coordinate.canvas 1500 (-30)) 1
                 {| xMin := 20; xMax := 1180; yMin := 20; yMax := 680;
                    currentCropHandles := [CropHandle.xMin; CropHandle.yMax] |}))
    = true.
Proof.
  apply (drag_of_xMin_and_yMax_keeps_order
           (Coordinate.mk Coordinate.canvas 1500 (-30)) 1
           {| xMin := 20; xMax := 1180; yMin := 20; yMax := 680;
              currentCropHandles := [CropHandle.xMin; CropHandle.yMax] |});
    vm_compute; reflexivity.
Defined.
End CropOrderExtras.
(** ** More on the scene *)

(** *** References and records *)

Section SceneLaws.
Import Composer.
Context {N : Type} `{!Number N}.
Variable Math_pow : N → N → N.
Implicit Type st : Composer N.

Lemma omap_insert_fresh (objects : gmap ref (RenderableImage.t N))
    (l : list ref) (r : ref) (image : RenderableImage.t N) :
  (∀ r', r' ∈ l → is_Some (objects !! r')) → objects !! r = None →
  omap (λ r', <[r := image]> objects !! r') l = omap (λ r', objects !! r') l.
Proof.
  intros Hl Hr. induction l as [|r' l IH]; [reflexivity|]. simpl.
  assert (r ≠ r') as Hne.
  { intros ->. destruct (Hl r') as [? Hsome]; [apply list_elem_of_here|].
    congruence. }
  rewrite lookup_insert_ne by exact Hne.
  change (list_omap ref (RenderableImage.t N)) with (@omap list _ ref (RenderableImage.t N)).
  rewrite IH; [reflexivity|]. intros r'' Hr''. apply Hl, list_elem_of_further, Hr''.
Qed.

Lemma fresh_is_new st : objects st !! fresh (dom (objects st)) = None.
Proof. apply not_elem_of_dom, is_fresh. Qed.

Lemma fresh_not_in_images st :
  scene_well_formed st → fresh (dom (objects st)) ∉ images st.
Proof.
  intros (Himages & _) Hin. destruct (Himages _ Hin) as [? Hsome].
  rewrite fresh_is_new in Hsome. discriminate.
Qed.

Lemma insert_fresh_is_Some st (image : RenderableImage.t N) (r : ref) :
  is_Some (objects st !! r) →
  is_Some (<[fresh (dom (objects st)) := image]> (objects st) !! r).
Proof. intros Hr. apply lookup_insert_is_Some'. right. exact Hr. Qed.

Lemma setup_well_formed (rect : option (DOMRect.t N)) :
  scene_well_formed (setup rect).
Proof.
  split_and!; simpl; try discriminate; [|constructor].
  intros r Hr. inversion Hr.
Qed.

Lemma saveState_well_formed st :
  scene_well_formed st → scene_well_formed (saveState st).
Proof.
  unfold scene_well_formed.
  destruct (saveState_scene st) as (-> & -> & -> & ->). auto.
Qed.

Lemma push_well_formed (image : RenderableImage.t N) st :
  scene_well_formed st → scene_well_formed (push image st).
Proof.
  intros Hwf. pose proof (fresh_not_in_images st Hwf) as Hnew.
  destruct Hwf as (Himages & Hnodup & Hselected & Hdrag).
  unfold push. split_and!; simpl.
  - intros r [Hr|Hr]%elem_of_app.
    + apply insert_fresh_is_Some, Himages, Hr.
    + apply list_elem_of_singleton in Hr as ->. rewrite lookup_insert_eq. eauto.
  - apply NoDup_app. split_and!; [exact Hnodup| |apply NoDup_singleton].
    intros r Hr Hr'. apply list_elem_of_singleton in Hr' as ->. exact (Hnew Hr).
  - intros r Hr. apply insert_fresh_is_Some, Hselected, Hr.
  - intros d Hd. apply insert_fresh_is_Some, Hdrag, Hd.
Qed.

Lemma records_push (image : RenderableImage.t N) st :
  scene_well_formed st → records (push image st) = records st ++ [image].
Proof.
  intros Hwf. unfold records, push. simpl.
  rewrite omap_app. simpl. rewrite lookup_insert_eq.
  rewrite omap_insert_fresh; [reflexivity|apply Hwf|apply fresh_is_new].
Qed.

Lemma loadState_well_formed (resolved : option (list (RenderableImage.t N))) st :
  scene_well_formed st → scene_well_formed (loadState resolved st).
Proof.
  destruct resolved as [resolved|]; [|auto]. simpl.
  revert st. induction resolved as [|image resolved IH]; intros st Hwf;
    [exact Hwf|].
  simpl. apply IH, push_well_formed, Hwf.
Qed.

Lemma records_loadState (resolved : list (RenderableImage.t N)) st :
  scene_well_formed st →
  records (loadState (Some resolved) st) = records st ++ resolved.
Proof.
  simpl. change (records (set_loadFinished true ?s)) with (records s).
  revert st. induction resolved as [|image resolved IH]; intros st Hwf; simpl.
  - rewrite app_nil_r. reflexivity.
  - rewrite IH by (apply push_well_formed, Hwf).
    rewrite records_push by exact Hwf. rewrite <- app_assoc. reflexivity.
Qed.

Lemma addImageCallback_well_formed (image : RenderableImage.t N) st :
  scene_well_formed st → scene_well_formed (addImageCallback image st).
Proof.
  intros Hwf. pose proof (fresh_not_in_images st Hwf) as Hnew.
  destruct Hwf as (Himages & Hnodup & Hselected & Hdrag).
  unfold addImageCallback. cbv zeta. apply saveState_well_formed.
  split_and!; simpl.
  - intros r [->|Hr]%elem_of_cons.
    + rewrite lookup_insert_eq. eauto.
    + apply insert_fresh_is_Some, Himages, Hr.
  - constructor; assumption.
  - intros r Hr. apply insert_fresh_is_Some, Hselected, Hr.
  - intros d Hd. apply insert_fresh_is_Some, Hdrag, Hd.
Qed.

Lemma records_addImageCallback (image : RenderableImage.t N) st :
  scene_well_formed st →
  records (addImageCallback image st) = image :: records st.
Proof.
  intros Hwf. unfold addImageCallback. cbv zeta. rewrite records_saveState.
  unfold records. simpl. rewrite lookup_insert_eq.
  rewrite omap_insert_fresh; [reflexivity|apply Hwf|apply fresh_is_new].
Qed.

Lemma alter_well_formed (f : RenderableImage.t N → RenderableImage.t N)
    (r : ref) st :
  scene_well_formed st → scene_well_formed (set_objects (alter f r (objects st)) st).
Proof.
  intros (Himages & Hnodup & Hselected & Hdrag).
  split_and!; simpl; [|exact Hnodup| |]; intros; apply lookup_alter_is_Some; auto.
Qed.

Lemma grab_well_formed (x y : N) (r : ref) st :
  scene_well_formed st → is_Some (objects st !! r) →
  scene_well_formed
    (set_selectedImage (Some r)
       (set_imageDragState (Some (mkImageDragState x y r)) st)).
Proof.
  intros (Himages & Hnodup & _ & _) Hr.
  split_and!; simpl; [exact Himages|exact Hnodup| |]; intros ? [= <-]; exact Hr.
Qed.

Lemma handleMouseDown_well_formed (e : MouseEvent.t N) st :
  scene_well_formed st → scene_well_formed (handleMouseDown e st).
Proof.
  intros Hwf. unfold handleMouseDown.
  destruct (canvas st) as [rect|]; [|exact Hwf].
  destruct (bool_decide _).
  - destruct (findIndex _ _) as [idx|].
    + destruct (images st !! idx) as [r|] eqn:Hidx; [|exact Hwf].
      destruct Hwf as (Himages & Hnodup & Hselected & Hdrag).
      assert (Hr : is_Some (objects st !! r)).
      { apply Himages, list_elem_of_lookup. eauto. }
      assert (Hfront : scene_well_formed
                         (set_images (r :: delete idx (images st)) st)).
      { split_and!; simpl; [| |exact Hselected|exact Hdrag].
        - intros r' [->|Hr']%elem_of_cons; [exact Hr|].
          apply Himages, (list_elem_of_delete_inv _ idx), Hr'.
        - rewrite <- (delete_Permutation _ _ _ Hidx). exact Hnodup. }
      destruct (negb _); apply grab_well_formed.
      * apply saveState_well_formed, Hfront.
      * destruct (saveState_scene (set_images (r :: delete idx (images st)) st))
          as (_ & -> & _). exact Hr.
      * split_and!; assumption.
      * exact Hr.
    + destruct Hwf as (Himages & Hnodup & Hselected & Hdrag).
      split_and!; simpl; [exact Himages|exact Hnodup|discriminate|exact Hdrag].
  - destruct (bool_decide _); exact Hwf.
Qed.

Lemma handleMouseMove_well_formed (e : MouseEvent.t N) st :
  scene_well_formed st → scene_well_formed (handleMouseMove e st).
Proof.
  intros Hwf. unfold handleMouseMove.
  destruct (canvas st) as [rect|]; [|exact Hwf]. simpl.
  destruct (imageDragState st) as [drag|] eqn:Hdragging.
  - pose proof (alter_well_formed
                  (λ i, RenderableImage.set_position
                          (RenderableImage.x i
                           + (MouseEvent.clientX e - lastX drag)
                             / canvasPixelsPerMeter st)%num
                          (RenderableImage.y i
                           + (MouseEvent.clientY e - lastY drag)
                             / canvasPixelsPerMeter st)%num i)
                  (img drag) st Hwf) as (Himages & Hnodup & Hselected & Hdrag).
    split_and!; simpl; [exact Himages|exact Hnodup|exact Hselected|].
    intros d [= <-]. simpl. apply Hdrag. simpl. exact Hdragging.
  - destruct (canvasDragState st); exact Hwf.
Qed.

Lemma handleMouseUp_well_formed st :
  scene_well_formed st → scene_well_formed (handleMouseUp st).
Proof.
  intros (Himages & Hnodup & Hselected & _)%saveState_well_formed.
  split_and!; simpl; [exact Himages|exact Hnodup|exact Hselected|discriminate].
Qed.

Lemma handleMouseWheel_well_formed (e : WheelEvent.t N) st :
  scene_well_formed st → scene_well_formed (handleMouseWheel Math_pow e st).
Proof. unfold handleMouseWheel. destruct (mousePos st); auto. Qed.

Lemma update_selected_well_formed
    (f : RenderableImage.t N → RenderableImage.t N) st :
  scene_well_formed st → scene_well_formed (update_selected f st).
Proof.
  unfold update_selected. destruct (selectedImage st); [|auto].
  apply alter_well_formed.
Qed.

Lemma handleDelete_well_formed st :
  scene_well_formed st → scene_well_formed (handleDelete st).
Proof.
  intros Hwf. unfold handleDelete.
  destruct (selectedImage st) as [r|]; [|exact Hwf].
  destruct (objects st !! r); [|exact Hwf].
  destruct (findIndex _ _) as [idx|]; [|exact Hwf].
  destruct Hwf as (Himages & Hnodup & Hselected & Hdrag).
  split_and!; simpl; [| |exact Hselected|exact Hdrag].
  - intros r' Hr'. apply Himages, (list_elem_of_delete_inv _ idx), Hr'.
  - eapply sublist_NoDup; [exact Hnodup|apply sublist_delete].
Qed.

Lemma step_well_formed (ev : ComposerEvent.t N) st :
  scene_well_formed st → scene_well_formed (ComposerEvent.step Math_pow ev st).
Proof.
  destruct ev; simpl;
    auto using handleMouseDown_well_formed, handleMouseMove_well_formed,
      handleMouseUp_well_formed, handleMouseWheel_well_formed,
      update_selected_well_formed, handleDelete_well_formed,
      addImageCallback_well_formed, loadState_well_formed;
    apply update_selected_well_formed.
Qed.

Lemma run_well_formed (evs : list (ComposerEvent.t N)) st :
  scene_well_formed st → scene_well_formed (ComposerEvent.run Math_pow evs st).
Proof.
  revert st. induction evs as [|ev evs IH]; intros st Hwf; [exact Hwf|].
  apply IH, step_well_formed, Hwf.
Qed.

Lemma well_formed_records_length st :
  scene_well_formed st → length (records st) = length (images st).
Proof.
  intros (Himages & _). unfold records.
  induction (images st) as [|r l IH]; [reflexivity|]. simpl.
  destruct (Himages r) as [image ->]; [apply list_elem_of_here|]. simpl.
  f_equal. apply IH. intros r' Hr'. apply Himages, list_elem_of_further, Hr'.
Qed.
End SceneLaws.

(** *** The sequence over a session *)

Section SceneExtras.
Import Composer.
Context {N : Type} `{!Number N}.
Implicit Type st : Composer N.

(** X13: whatever the user does in the composer (presses, moves,
    releases, wheel, the toolbar's buttons, added images, the stored state
    arriving), every image of the sequence, the selected image and the
    dragged image have their record, no image is in the sequence twice,
    and the sequence shows as many records as it has images. *)
Theorem scene_stays_well_formed (Math_pow : N → N → N)
    (evs : list (ComposerEvent.t N)) (rect : option (DOMRect.t N)) :
  scene_well_formed (ComposerEvent.run Math_pow evs (setup rect))
  ∧ length (records (ComposerEvent.run Math_pow evs (setup rect)))
    = length (images (ComposerEvent.run Math_pow evs (setup rect))).
Proof.
  assert (scene_well_formed (ComposerEvent.run Math_pow evs (setup rect))) as Hwf
    by apply run_well_formed, setup_well_formed.
  split; [exact Hwf|]. apply well_formed_records_length, Hwf.
Qed.

(** X14: a press of a mouse button only reorders the sequence: the
    sequence after it is a permutation of the one before, and every record
    is what it was. *)
Theorem handleMouseDown_permutes_images (e : MouseEvent.t N) st :
  images (handleMouseDown e st) ≡ₚ images st
  ∧ objects (handleMouseDown e st) = objects st.
Proof.
  unfold handleMouseDown.
  destruct (canvas st) as [rect|]; [|split; reflexivity].
  destruct (bool_decide _).
  - destruct (findIndex _ _) as [idx|]; [|split; reflexivity].
    destruct (images st !! idx) as [r|] eqn:Hidx; [|split; reflexivity].
    destruct (negb _); [|split; reflexivity].
    change (images (set_selectedImage ?a (set_imageDragState ?b ?s)))
      with (images s).
    change (objects (set_selectedImage ?a (set_imageDragState ?b ?s)))
      with (objects s).
    destruct (saveState_scene (set_images (r :: delete idx (images st)) st))
      as (-> & -> & _).
    split; [|reflexivity]. simpl. symmetry. apply delete_Permutation, Hidx.
  - destruct (bool_decide _); split; reflexivity.
Qed.

(** X15: an added image goes in front of the sequence, above all others,
    with the records behind it as they were; the selection stays, and the
    whole new sequence is written to the store. *)
Theorem addImageCallback_in_front (image : RenderableImage.t N) st :
  scene_well_formed st →
  records (addImageCallback image st) = image :: records st
  ∧ selectedImage (addImageCallback image st) = selectedImage st
  ∧ localStorage_setItem (addImageCallback image st)
    = localStorage_setItem st
      ++ [(SAVE_KEY, SavedImage.of_image <$> (image :: records st))].
Proof.
  intros Hwf. rewrite addImageCallback_saves.
  rewrite records_addImageCallback by exact Hwf.
  split_and!; [reflexivity| |reflexivity].
  unfold addImageCallback. cbv zeta.
  match goal with
  | |- selectedImage (saveState ?s) = _ =>
      destruct (saveState_scene s) as (_ & _ & -> & _)
  end.
  reflexivity.
Qed.

Lemma of_image_resolve (elem : SavedImage.t N) (img : HTMLImageElement.t N) :
  HTMLImageElement.src img = SavedImage.image elem →
  SavedImage.of_image (resolve elem img) = elem.
Proof. destruct elem. simpl. unfold SavedImage.of_image. simpl. intros ->. reflexivity. Qed.

Lemma of_image_resolved (saved : list (SavedImage.t N))
    (elements : list (HTMLImageElement.t N)) :
  Forall2 (λ elem img, HTMLImageElement.src img = SavedImage.image elem)
          saved elements →
  SavedImage.of_image <$> zip_with resolve saved elements = saved.
Proof.
  induction 1 as [|elem img saved elements Hsrc _ IH]; [reflexivity|].
  simpl. f_equal; [apply of_image_resolve, Hsrc|exact IH].
Qed.

Lemma loadState_console_warn (resolved : option (list (RenderableImage.t N))) st :
  console_warn (loadState resolved st) = console_warn st.
Proof.
  destruct resolved as [resolved|]; [|reflexivity]. simpl.
  revert st. induction resolved as [|image resolved IH]; intros st;
    [reflexivity|].
  simpl. rewrite IH. reflexivity.
Qed.

Lemma loadState_writes (resolved : option (list (RenderableImage.t N))) st :
  localStorage_setItem (loadState resolved st) = localStorage_setItem st.
Proof.
  destruct resolved as [resolved|]; [|reflexivity]. simpl.
  revert st. induction resolved as [|image resolved IH]; intros st;
    [reflexivity|].
  simpl. rewrite IH. reflexivity.
Qed.

Lemma saveState_quiet st :
  loadFinished st = true → console_warn (saveState st) = console_warn st.
Proof. unfold saveState. intros ->. reflexivity. Qed.

(** X16: load and save are inverse on a fresh component.  When the store
    holds the list [saved] and each image element reports the [src] it was
    given, the sequence after [loadState] is the saved records in their
    saved order, a [saveState] right after hands the very list [saved] to
    the store, and it prints no warning. *)
Theorem loadState_saveState_round_trip (saved : list (SavedImage.t N))
    (elements : list (HTMLImageElement.t N)) (rect : option (DOMRect.t N)) :
  Forall2 (λ elem img, HTMLImageElement.src img = SavedImage.image elem)
          saved elements →
  records (loadState (Some (zip_with resolve saved elements)) (setup rect))
  = zip_with resolve saved elements
  ∧ localStorage_setItem
      (saveState
         (loadState (Some (zip_with resolve saved elements)) (setup rect)))
    = [(SAVE_KEY, saved)]
  ∧ console_warn
      (saveState
         (loadState (Some (zip_with resolve saved elements)) (setup rect)))
    = [].
Proof.
  intros Hsrc.
  assert (records (loadState (Some (zip_with resolve saved elements)) (setup rect))
          = zip_with resolve saved elements) as Hrecords.
  { rewrite records_loadState by apply setup_well_formed. reflexivity. }
  split_and!; [exact Hrecords| |].
  - rewrite saveState_writes, Hrecords, of_image_resolved by exact Hsrc.
    rewrite loadState_writes. reflexivity.
  - rewrite saveState_quiet by reflexivity. apply loadState_console_warn.
Qed.
End SceneExtras.

Lemma addImageCallback_in_front_witness :
  scene_well_formed Sample.scene
  ∧ Composer.records (Composer.addImageCallback (Sample.placed 6 50 0) Sample.scene)
    = Sample.placed 6 50 0 :: Composer.records Sample.scene.
Proof.
  assert (scene_well_formed Sample.scene) as Hwf
    by apply loadState_well_formed, setup_well_formed.
  split; [exact Hwf|].
  exact (proj1 (addImageCallback_in_front (Sample.placed 6 50 0) Sample.scene Hwf)).
Defined.

Lemma loadState_saveState_round_trip_witness :
  Composer.localStorage_setItem
    (Composer.saveState
       (Composer.loadState
          (Some (zip_with resolve
                   [SavedImage.of_image (Sample.placed 1 0 0)]
                   [RenderableImage.image (Sample.placed 1 0 0)]))
          (Composer.setup (Some Sample.at_origin))))
  = [(Composer.SAVE_KEY, [SavedImage.of_image (Sample.placed 1 0 0)])].
Proof.
  apply (loadState_saveState_round_trip
           [SavedImage.of_image (Sample.placed 1 0 0)]
           [RenderableImage.image (Sample.placed 1 0 0)]
           (Some Sample.at_origin)).
  repeat constructor.
Defined.

(** *** The toolbar *)

Section ToolbarExtras.
Import Composer.
Context {N : Type} `{!Number N}.
Implicit Type st : Composer N.

Lemma update_selected_untouched
    (f : RenderableImage.t N → RenderableImage.t N) st :
  untouched_but (selectedImage st) (update_selected f st) st.
Proof.
  unfold update_selected, untouched_but.
  destruct (selectedImage st) as [r|] eqn:Hselected; simpl; split_and!;
    try (reflexivity || assumption).
  intros r' Hr'. apply lookup_alter_ne. congruence.
Qed.

Lemma update_selected_record
    (f : RenderableImage.t N → RenderableImage.t N) st (r : ref) :
  selectedImage st = Some r →
  objects (update_selected f st) !! r = f <$> objects st !! r.
Proof. unfold update_selected. intros ->. simpl. apply lookup_alter_eq. Qed.

(** X17: the four toolbar actions on the selected image (rotate left,
    rotate right, opacity, rename) write one field of the selected image's
    record: its other fields, every other record, the sequence, the
    selection, the camera and the drags are what they were.  With no
    image selected they change nothing at all. *)
Theorem toolbar_edits_one_field_of_selected (ev : ComposerEvent.t N)
    (Math_pow : N → N → N) st :
  (ev = ComposerEvent.rotateLeft ∨ ev = ComposerEvent.rotateRight
   ∨ (∃ v, ev = ComposerEvent.opacity v)
   ∨ (∃ answer, ev = ComposerEvent.rename answer)) →
  untouched_but (selectedImage st) (ComposerEvent.step Math_pow ev st) st
  ∧ (selectedImage st = None → ComposerEvent.step Math_pow ev st = st)
  ∧ (∀ r i, selectedImage st = Some r → objects st !! r = Some i →
       ∃ i', objects (ComposerEvent.step Math_pow ev st) !! r = Some i'
             ∧ (i' = RenderableImage.set_rotationDegrees
                       (RenderableImage.rotationDegrees i') i
                ∨ i' = RenderableImage.set_opacity (RenderableImage.opacity i') i
                ∨ i' = RenderableImage.set_label (RenderableImage.label i') i)).
Proof.
  intros [->|[->|[[v ->]|[answer ->]]]]; simpl;
    (split_and!;
     [apply update_selected_untouched
     |unfold handleRotateLeft, handleRotateRight, handleOpacityChange,
        handleRename, update_selected; intros ->; reflexivity
     |intros r i Hselected Hrecord;
      unfold handleRotateLeft, handleRotateRight, handleOpacityChange,
        handleRename;
      rewrite (update_selected_record _ _ _ Hselected), Hrecord; simpl;
      eexists; split; [reflexivity|]; auto]).
Qed.

(** X18: the label after a rename is the text typed, and nothing when the
    prompt was cancelled or left empty: cancelling the prompt erases the
    label the image had. *)
Theorem handleRename_cancel_erases_label (answer : option string) st (r : ref)
    (i : RenderableImage.t N) :
  selectedImage st = Some r → objects st !! r = Some i →
  RenderableImage.label <$> objects (handleRename answer st) !! r
  = Some (match answer with
          | None | Some EmptyString => None
          | Some text => Some text
          end).
Proof.
  intros Hselected Hrecord. unfold handleRename.
  rewrite (update_selected_record _ _ _ Hselected), Hrecord. simpl.
  destruct answer as [[|c text]|]; reflexivity.
Qed.
End ToolbarExtras.

Lemma handleRename_cancel_erases_label_witness :
  RenderableImage.label
    <$> Composer.objects (Composer.handleRename None Sample.third_selected) !! 2
  = Some None.
Proof.
  assert (Composer.selectedImage Sample.third_selected = Some 2) as Hselected
    by (vm_compute; reflexivity).
  assert (Composer.objects Sample.third_selected !! 2
          = Some (Sample.placed 3 20 0)) as Hrecord
    by (vm_compute; reflexivity).
  exact (handleRename_cancel_erases_label None Sample.third_selected 2
           (Sample.placed 3 20 0) Hselected Hrecord).
Defined.

Lemma toolbar_edits_one_field_of_selected_witness :
  untouched_but (Composer.selectedImage Sample.third_selected)
    (ComposerEvent.step (λ a _, a) (ComposerEvent.opacity 0.5%float)
       Sample.third_selected)
    Sample.third_selected.
Proof.
  refine (proj1 (toolbar_edits_one_field_of_selected
                   (ComposerEvent.opacity 0.5%float) (λ a _, a)
                   Sample.third_selected _)).
  right. right. left. eexists. reflexivity.
Defined.
Section RotationExtras.
Import Composer.
Local Open Scope float_scope.
Implicit Type st : Composer float.

Lemma set_rotationDegrees_same (i : RenderableImage.t float) :
  RenderableImage.set_rotationDegrees (RenderableImage.rotationDegrees i) i = i.
Proof. destruct i. reflexivity. Qed.

Lemma update_selected_id (f : RenderableImage.t float → RenderableImage.t float)
    st :
  (∀ r i, selectedImage st = Some r → objects st !! r = Some i → f i = i) →
  update_selected f st = st.
Proof.
  intros Hf. unfold update_selected.
  destruct (selectedImage st) as [r|] eqn:Hselected; [|reflexivity].
  rewrite alter_id by (intros i Hi; exact (Hf r i eq_refl Hi)).
  destruct st. reflexivity.
Qed.

Lemma update_selected_compose
    (f g : RenderableImage.t float → RenderableImage.t float) st :
  update_selected f (update_selected g st) = update_selected (f ∘ g) st.
Proof.
  unfold update_selected. destruct (selectedImage st) as [r|] eqn:Hselected;
    simpl; rewrite ?Hselected; [|reflexivity].
  rewrite alter_alter_eq. reflexivity.
Qed.

(** X19: for an image turned by 0, 90, 180 or 270 degrees, in binary64,
    [Rotate left] undoes [Rotate right] and the other way round, and four
    times [Rotate right] puts the scene back as it was. *)
Theorem rotations_cycle st :
  (∀ r i, selectedImage st = Some r → objects st !! r = Some i →
     RenderableImage.rotationDegrees i ∈ [0; 90; 180; 270]) →
  handleRotateLeft (handleRotateRight st) = st
  ∧ handleRotateRight (handleRotateLeft st) = st
  ∧ handleRotateRight
      (handleRotateRight (handleRotateRight (handleRotateRight st))) = st.
Proof.
  intros Hquarter. unfold handleRotateLeft, handleRotateRight.
  rewrite !update_selected_compose.
  split_and!; apply update_selected_id; intros r [] Hselected Hrecord;
    specialize (Hquarter r _ Hselected Hrecord); simpl in Hquarter;
    rewrite !elem_of_cons in Hquarter;
    destruct Hquarter as [->|[->|[->|[->|Hnone]]]];
    try (inversion Hnone); reflexivity.
Qed.
End RotationExtras.

Lemma rotations_cycle_witness :
  Composer.handleRotateLeft (Composer.handleRotateRight Sample.third_selected)
  = Sample.third_selected.
Proof.
  refine (proj1 (rotations_cycle Sample.third_selected _)).
  intros r i Hselected Hrecord.
  assert (Composer.selectedImage Sample.third_selected = Some 2) as Htwo
    by (vm_compute; reflexivity).
  assert (Composer.objects Sample.third_selected !! 2
          = Some (Sample.placed 3 20 0)) as Hthird
    by (vm_compute; reflexivity).
  unfold Composer.ref in *.
  assert (r = 2) as -> by congruence.
  assert (i = Sample.placed 3 20 0) as -> by congruence.
  apply list_elem_of_here.
Defined.

(** *** The camera, in exact arithmetic *)

Section CameraExtras.
Import Composer.
Implicit Type st : Composer R.

Lemma set_position_twice (a b c d : R) (i : RenderableImage.t R) :
  RenderableImage.set_position a b (RenderableImage.set_position c d i)
  = RenderableImage.set_position a b i.
Proof. reflexivity. Qed.




End CameraExtras.



(** *** Presses and releases *)

Section PressExtras.
Import Composer.
Context {N : Type} `{!Number N}.
Implicit Type st : Composer N.

Lemma handleMouseMove_idle (e : MouseEvent.t N) st :
  imageDragState st = None → canvasDragState st = None →
  imageDragState (handleMouseMove e st) = None
  ∧ canvasDragState (handleMouseMove e st) = None
  ∧ objects (handleMouseMove e st) = objects st
  ∧ images (handleMouseMove e st) = images st
  ∧ renderOrigin (handleMouseMove e st) = renderOrigin st
  ∧ canvasPixelsPerMeter (handleMouseMove e st) = canvasPixelsPerMeter st
  ∧ selectedImage (handleMouseMove e st) = selectedImage st
  ∧ localStorage_setItem (handleMouseMove e st) = localStorage_setItem st.
Proof.
  intros Himage Hpan. unfold handleMouseMove.
  destruct (canvas st); [|split_and!; auto].
  cbv zeta.
  change (imageDragState (set_mousePos ?p st)) with (imageDragState st).
  change (canvasDragState (set_mousePos ?p st)) with (canvasDragState st).
  rewrite Himage, Hpan. split_and!; auto.
Qed.

(** X23: while no button is held, moving the pointer moves nothing: from
    a state in which neither an image nor the canvas is dragged, as after
    every release, any number of pointer moves leaves the records, the
    sequence, the selection, the camera and the store as they are. *)
Theorem idle_pointer_moves_nothing (es : list (MouseEvent.t N)) st :
  imageDragState st = None → canvasDragState st = None →
  objects (foldl (λ st e, handleMouseMove e st) st es) = objects st
  ∧ images (foldl (λ st e, handleMouseMove e st) st es) = images st
  ∧ selectedImage (foldl (λ st e, handleMouseMove e st) st es)
    = selectedImage st
  ∧ renderOrigin (foldl (λ st e, handleMouseMove e st) st es)
    = renderOrigin st
  ∧ canvasPixelsPerMeter (foldl (λ st e, handleMouseMove e st) st es)
    = canvasPixelsPerMeter st
  ∧ localStorage_setItem (foldl (λ st e, handleMouseMove e st) st es)
    = localStorage_setItem st.
Proof.
  revert st. induction es as [|e es IH]; intros st Himage Hpan;
    [split_and!; reflexivity|].
  destruct (handleMouseMove_idle e st Himage Hpan)
    as (Himage' & Hpan' & Hobjects & Himages & Horigin & Hzoom & Hselected
        & Hwrites).
  destruct (IH (handleMouseMove e st) Himage' Hpan')
    as (Hobjects' & Himages' & Hselected' & Horigin' & Hzoom' & Hwrites').
  simpl. split_and!; congruence.
Qed.

(** X24: a press writes to the store exactly when it reorders the
    sequence.  In a scene where no image is in the sequence twice, either
    the press leaves the sequence and the store alone, or it changes the
    sequence and one write follows, of the records in their new order. *)
Theorem handleMouseDown_saves_iff_it_reorders (e : MouseEvent.t N) st :
  scene_well_formed st →
  (images (handleMouseDown e st) = images st
   ∧ localStorage_setItem (handleMouseDown e st) = localStorage_setItem st)
  ∨ (images (handleMouseDown e st) ≠ images st
     ∧ localStorage_setItem (handleMouseDown e st)
       = localStorage_setItem st
         ++ [(SAVE_KEY, SavedImage.of_image <$> records (handleMouseDown e st))]).
Proof.
  intros (_ & Hnodup & _). unfold handleMouseDown.
  destruct (canvas st) as [rect|]; [|left; split; reflexivity].
  destruct (bool_decide _).
  - destruct (findIndex _ _) as [idx|]; [|left; split; reflexivity].
    destruct (images st !! idx) as [r|] eqn:Hidx; [|left; split; reflexivity].
    destruct (decide (idx = 0%nat)) as [->|Hlater].
    + left. split; reflexivity.
    + rewrite bool_decide_eq_false_2 by exact Hlater. right. cbv zeta. simpl negb.
      cbv iota.
      change (images (set_selectedImage ?a (set_imageDragState ?b ?s)))
        with (images s).
      change (localStorage_setItem
                (set_selectedImage ?a (set_imageDragState ?b ?s)))
        with (localStorage_setItem s).
      change (records (set_selectedImage ?a (set_imageDragState ?b ?s)))
        with (records s).
      rewrite records_saveState, saveState_writes.
      destruct (saveState_scene (set_images (r :: delete idx (images st)) st))
        as (-> & _).
      split; [|reflexivity]. simpl. intros Hsame.
      assert (images st !! 0%nat = Some r) as Hfirst
        by (rewrite <- Hsame; reflexivity).
      apply Hlater. exact (NoDup_lookup _ _ _ _ Hnodup Hidx Hfirst).
  - destruct (bool_decide _); left; split; reflexivity.
Qed.
End PressExtras.

Lemma idle_pointer_moves_nothing_witness :
  Composer.objects
    (foldl (λ st e, Composer.handleMouseMove e st) Sample.third_selected
           [Sample.pointer 3 4; Sample.pointer 500 60])
  = Composer.objects Sample.third_selected.
Proof.
  assert (Composer.imageDragState Sample.third_selected = None) as Himage
    by (vm_compute; reflexivity).
  assert (Composer.canvasDragState Sample.third_selected = None) as Hpan
    by (vm_compute; reflexivity).
  exact (proj1 (idle_pointer_moves_nothing
                  [Sample.pointer 3 4; Sample.pointer 500 60]
                  Sample.third_selected Himage Hpan)).
Defined.

Lemma handleMouseDown_saves_iff_it_reorders_witness :
  scene_well_formed Sample.scene
  ∧ ((Composer.images (Composer.handleMouseDown (Sample.pointer 1050 50) Sample.scene)
      = Composer.images Sample.scene
      ∧ Composer.localStorage_setItem
          (Composer.handleMouseDown (Sample.pointer 1050 50) Sample.scene)
        = Composer.localStorage_setItem Sample.scene)
     ∨ (Composer.images (Composer.handleMouseDown (Sample.pointer 1050 50) Sample.scene)
        ≠ Composer.images Sample.scene
        ∧ Composer.localStorage_setItem
            (Composer.handleMouseDown (Sample.pointer 1050 50) Sample.scene)
          = Composer.localStorage_setItem Sample.scene
            ++ [(Composer.SAVE_KEY,
                 SavedImage.of_image
                   <$> Composer.records
                         (Composer.handleMouseDown (Sample.pointer 1050 50)
                            Sample.scene))])).
Proof.
  assert (scene_well_formed Sample.scene) as Hwf
    by apply loadState_well_formed, setup_well_formed.
  split; [exact Hwf|].
  exact (handleMouseDown_saves_iff_it_reorders (Sample.pointer 1050 50)
           Sample.scene Hwf).
Defined.
